(** * Continuous multi-fidelity Bayesian optimisation with the
      multi-fidelity Knowledge Gradient

    A shallow embedding of [tutorials/multi_fidelity_bo/multi_fidelity_bo.ipynb].

    Tensors of doubles are lists of exact rationals: a design point is a
    [list Q], a [q x d] candidate batch a list of design points, an
    [n x 1] tensor of observations a [list Q].  The notebook's own
    functions are translated cell by cell; the BoTorch components they
    call are not part of the sources at hand and are modelled from the
    specification, each under a comment saying so.  The surrogate model,
    the test objective, the pseudo-random stream and the line search of
    the local maximiser are external and enter as section variables. *)

From Stdlib Require Import QArith Qminmax Lqa.
From stdpp Require Import base option list gmap strings.

Local Open Scope Q_scope.

Abbreviation Point := (list Q).
Abbreviation Batch := (list (list Q)).

(** ** Numeric helpers *)

Definition Qlt_bool (a b : Q) : bool := negb (Qle_bool b a).

(** [Tensor.sum()] *)
Definition tensor_sum (l : list Q) : Q := foldr Qplus 0 l.

(** [torch.clamp(x, l, u)] *)
Definition clamp (l u x : Q) : Q := Qmin (Qmax x l) u.

Definition Q_of_nat (n : nat) : Q := inject_Z (Z.of_nat n).

(** ** Errors *)

(** What a call can raise: the validation error of section 7 with the
    offending parameter, a max-reduction with nothing to reduce, and
    Python's errors for an unbound name and for the maximum of an empty
    tensor. *)
Inductive Error :=
  | ValidationError (param : string)
  | NoCandidates
  | NameError (name : string)
  | RuntimeError (msg : string).

(** ** Fidelity projector *)

(** Modelled from the spec: [project_to_target_fidelity] of
    [botorch.acquisition.utils] is not among the sources.  Section 4.1:
    the result equals [x] on non-fidelity dimensions and the Target
    Fidelity Vector on fidelity dimensions, and the argument is left
    alone (a new tensor is built). *)
Definition project_point (target_fidelities : gmap nat Q) (x : Point) : Point :=
  imap (λ i xi, default xi (target_fidelities !! i)) x.

Definition project_to_target_fidelity (X : Batch) (target_fidelities : gmap nat Q) : Batch :=
  fmap (project_point target_fidelities) X.

(** ** Cost model *)

(** Modelled from the spec: [AffineFidelityCostModel] of
    [botorch.models.cost] is not among the sources.  Section 3: a
    fixed cost and a map from fidelity dimension to weight. *)
Record AffineFidelityCostModel := {
  fidelity_weights : gmap nat Q;
  fixed_cost : Q
}.

(** Modelled from the spec: section 4.2,
    [cost(x) = fixed_cost + sum_f weight[f] * x[f]] over the fidelity
    dimensions [f].  A design point has all its fidelity dimensions; on a
    shorter vector the missing coordinate reads as [0] here. *)
Definition point_cost (cm : AffineFidelityCostModel) (x : Point) : Q :=
  fixed_cost cm
  + tensor_sum (fmap (λ fw, fw.2 * default 0 (x !! fw.1))
                    (map_to_list (fidelity_weights cm))).

(** Modelled from the spec: calling the cost model on a [q x d] batch
    gives the [q x 1] tensor of per-point costs; the notebook takes its
    [.sum()]. *)
Definition cost_model_call (cm : AffineFidelityCostModel) (X : Batch) : list Q :=
  fmap (point_cost cm) X.

(** Modelled from the spec: section 7, a negative fidelity weight is a
    validation error, raised when the cost model is built. *)
Definition AffineFidelityCostModel_init (weights : gmap nat Q) (fixed : Q)
  : Error + AffineFidelityCostModel :=
  if forallb (λ fw, Qle_bool 0 fw.2) (map_to_list weights)
  then inr {| fidelity_weights := weights; fixed_cost := fixed |}
  else inl (ValidationError "fidelity_weights").

(** ** Cost-aware utility *)

(** Modelled from the spec: [InverseCostWeightedUtility] of
    [botorch.acquisition.cost_aware] is not among the sources.  Section
    4.3: [utility(raw_value, cost) = raw_value / max(cost, eps)] for a
    small positive [eps], kept here as the field [min_cost]. *)
Record InverseCostWeightedUtility := {
  icw_cost_model : AffineFidelityCostModel;
  min_cost : Q
}.

Definition utility (eps raw_value cost : Q) : Q := raw_value / Qmax cost eps.

(** Modelled from the spec: sections 4.2 and 4.5 step 6, the utility of
    a candidate batch divides the raw value by the total cost of the
    batch, the sum over its design points. *)
Definition batch_cost (cm : AffineFidelityCostModel) (X : Batch) : Q :=
  tensor_sum (cost_model_call cm X).

Definition cost_aware_utility_call (u : InverseCostWeightedUtility) (X : Batch) (deltas : Q) : Q :=
  utility (min_cost u) deltas (batch_cost (icw_cost_model u) X).

(** The zero-weight scenario of section 8: every fidelity weight is zero. *)
Definition all_weights_zero (weights : gmap nat Q) : bool :=
  forallb (λ fw, Qeq_bool fw.2 0) (map_to_list weights).

(** ** The notebook's configuration cell *)

Definition target_fidelities : gmap nat Q := {[ 6%nat := 1 ]}.

Definition cost_model : AffineFidelityCostModel :=
  {| fidelity_weights := {[ 6%nat := 1 ]}; fixed_cost := 5 |}.

(** [def project(X): return project_to_target_fidelity(X=X, target_fidelities=target_fidelities)] *)
Definition project (X : Batch) : Batch :=
  project_to_target_fidelity X target_fidelities.

(** ** Bounds *)

(** The bounds tensor is a [2 x d] matrix, row 0 the lower and row 1 the
    upper bounds.  It is kept column by column, so that both rows have
    the same length by construction. *)
Abbreviation Bounds := (list (Q * Q)).

(** [torch.tensor([lower, upper])] *)
Definition bounds_of_rows (lo up : list Q) : Bounds := zip lo up.

Definition lower (b : Bounds) : list Q := b.*1.
Definition upper (b : Bounds) : list Q := b.*2.

(** [bounds[:, :-1]] *)
Definition drop_last_column (b : Bounds) : Bounds := take (length b - 1) b.

(** Modelled from the spec: section 7, bounds are invalid when
    [lower >= upper] for some dimension. *)
Definition valid_bounds (b : Bounds) : bool :=
  forallb (λ lu, Qlt_bool lu.1 lu.2) b.

(** Modelled from the spec: section 4.6, "all Design Point coordinates
    are clamped to the box at every step". *)
Definition clamp_point (b : Bounds) (x : Point) : Point :=
  zip_with (λ lu xi, clamp lu.1 lu.2 xi) b x.

Definition clamp_batch (b : Bounds) (X : Batch) : Batch :=
  fmap (clamp_point b) X.

(** [unnormalize] of [botorch.utils.transforms]: from the unit cube to
    the box. *)
Definition unnormalize (b : Bounds) (u : Point) : Point :=
  zip_with (λ lu ui, lu.1 + ui * (lu.2 - lu.1)) b u.

(** Bounds containment of a design point: for each dimension [i],
    [lower[i] <= x[i] <= upper[i]]. *)
Definition in_box (b : Bounds) (x : Point) : Prop :=
  ∀ (i : nat) (xi : Q), x !! i = Some xi →
    ∃ l u, lower b !! i = Some l ∧ upper b !! i = Some u ∧ l <= xi <= u.

Definition in_boxb (b : Bounds) (x : Point) : bool :=
  (length x <=? length b)%nat
  && forallb (λ p, Qle_bool p.1.1 p.2 && Qle_bool p.2 p.1.2) (zip b x).

(** A tensor of [q] rows and [d] columns. *)
Definition has_shape (q d : nat) (X : Batch) : Prop :=
  length X = q ∧ Forall (λ x, length x = d) X.

(** ** Effects: the random stream, the optimiser call count, the output *)

Inductive Printed :=
  | PrintCandidates (new_x : Batch)
  | PrintObservations (new_obj : list Q)
  | PrintRecommendation (final_rec : Batch) (objective_value : list Q)
  | PrintTotalCost (cumulative_cost : Q).

(** [rng] is the position in the pseudo-random stream fixed by the seed,
    [optimizer_calls] counts the calls of [optimize_acqf] so far, and
    [stdout] is what the cells have printed, latest first. *)
Record World := {
  rng : nat;
  optimizer_calls : nat;
  stdout : list Printed
}.

(** A computation reads and updates the world, or raises. *)
Definition M (A : Type) : Type := World → Error + (A * World).

#[export] Instance M_ret : MRet M := λ A a w, inr (a, w).
#[export] Instance M_bind : MBind M := λ A B f m w,
  match m w with
  | inl e => inl e
  | inr (a, w') => f a w'
  end.

Definition raise {A} (e : Error) : M A := λ _, inl e.

Definition advance_rng (n : nat) : M unit := λ w,
  inr (tt, {| rng := (rng w + n)%nat; optimizer_calls := optimizer_calls w; stdout := stdout w |}).

Definition get_rng : M nat := λ w, inr (rng w, w).

Definition count_optimizer_call : M unit := λ w,
  inr (tt, {| rng := rng w; optimizer_calls := S (optimizer_calls w); stdout := stdout w |}).

Definition print (p : Printed) : M unit := λ w,
  inr (tt, {| rng := rng w; optimizer_calls := optimizer_calls w; stdout := p :: stdout w |}).

(** ** Acquisition functions *)

(** Modelled from the spec: section 3, an Acquisition Function Instance
    is a pure function from a Candidate Batch, plus, for lookahead
    acquisitions, auxiliary inner optimisation points, to a scalar.
    [num_inner] is the number of those inner points: [0] for an ordinary
    acquisition, [K] for the one-shot Knowledge Gradient. *)
Record AcquisitionFunction := {
  forward : Batch → Q;
  num_inner : nat
}.

(** Modelled from the spec: [FixedFeatureAcquisitionFunction] of
    [botorch.acquisition.fixed_feature] is not among the sources.
    Section 4.4: a sub-problem of reduced dimension, the fixed columns
    clamped to their values. *)
Record FixedFeatureAcquisitionFunction := {
  ff_acq_function : AcquisitionFunction;
  ff_d : nat;
  ff_columns : list nat;
  ff_values : list Q
}.

Definition fixed_value (ff : FixedFeatureAcquisitionFunction) (i : nat) : option Q :=
  (list_to_map (zip (ff_columns ff) (ff_values ff)) : gmap nat Q) !! i.

(** The full point of [d] columns: a fixed column holds its value, the
    other columns hold the coordinates of the reduced point in order.
    The walk stops early when the reduced point is too short. *)
Fixpoint fill_columns (ff : FixedFeatureAcquisitionFunction) (n i : nat) (x : Point) : Point :=
  match n with
  | O => []
  | S n' =>
      match fixed_value ff i with
      | Some v => v :: fill_columns ff n' (S i) x
      | None =>
          match x with
          | [] => []
          | xi :: x' => xi :: fill_columns ff n' (S i) x'
          end
      end
  end.

Definition _construct_X_full (ff : FixedFeatureAcquisitionFunction) (X : Batch) : Batch :=
  fmap (fill_columns ff (ff_d ff) 0) X.

Definition FixedFeature_as_acqf (ff : FixedFeatureAcquisitionFunction) : AcquisitionFunction :=
  {| forward := λ X, forward (ff_acq_function ff) (_construct_X_full ff X);
     num_inner := num_inner (ff_acq_function ff) |}.

(** ** The continuous multi-restart optimiser *)

(** The recognised entries of the [options] dictionary. *)
Record OptimizeOptions := {
  batch_limit : nat;
  maxiter : nat
}.

(** Max-reduction over the restarts; on a tie the first found stays. *)
Definition better (best c : Batch * Q) : Batch * Q :=
  if Qlt_bool best.2 c.2 then c else best.

Definition max_reduction (l : list (Batch * Q)) : option (Batch * Q) :=
  match l with
  | [] => None
  | c :: l' => Some (foldl better c l')
  end.

(** Section 7, DegenerateAcquisition: all restarts end at numerically
    identical values. *)
Definition all_identical (l : list (Batch * Q)) : bool :=
  match l with
  | [] => true
  | c :: l' => forallb (λ c', Qeq_bool c'.2 c.2) l'
  end.

(** The restarts with the highest raw value first, earlier ones first
    among equals. *)
Fixpoint insert_by_value (c : Batch * Q) (l : list (Batch * Q)) : list (Batch * Q) :=
  match l with
  | [] => [c]
  | c' :: l' =>
      if Qle_bool c'.2 c.2 then c :: l else c' :: insert_by_value c l'
  end.

Definition sort_by_value (l : list (Batch * Q)) : list (Batch * Q) :=
  foldr insert_by_value [] l.

Definition select_restarts (num_restarts : nat) (scored : list (Batch * Q)) : list Batch :=
  (take num_restarts (sort_by_value scored)).*1.

(** [batch_limit] caps the number of restarts of one vectorised pass. *)
Fixpoint chunks {A} (fuel n : nat) (l : list A) : list (list A) :=
  match fuel with
  | O => []
  | S fuel' =>
      match l with
      | [] => []
      | _ => take n l :: chunks fuel' n (drop n l)
      end
  end.

Definition split_restarts {A} (limit : nat) (l : list A) : list (list A) :=
  match limit with
  | O => [l]
  | S _ => chunks (length l) limit l
  end.

(** ** A small concrete instance

    A stream, a line search, a surrogate and an objective on which the
    definitions below can be run. *)
Module Sample.

Definition unif (n : nat) : Q := Q_of_nat (n * 37 mod 101) / 101.

Definition ascent_direction (f : Batch → Q) (X : Batch) (j i : nat) : Q :=
  (Q_of_nat (j + i) - 1) / 8.

Definition converged (f : Batch → Q) (X : Batch) : bool := Qle_bool 100 (f X).

Definition acq : AcquisitionFunction :=
  {| forward := λ X, tensor_sum (concat X); num_inner := 0 |}.

Definition box : Bounds := bounds_of_rows [0; -1] [1; 2].

Definition options : OptimizeOptions := {| batch_limit := 2; maxiter := 3 |}.

Definition world : World := {| rng := 0; optimizer_calls := 0; stdout := [] |}.

(** A surrogate without memory that predicts [0] everywhere, for an
    objective that is [1] everywhere. *)
Definition SingleTaskMultiFidelityGP (train_x : list Point) (train_obj : list Q) : unit := tt.

Definition fit_gpytorch_mll (m : unit) : unit := m.

Definition posterior_mean (m : unit) (X : Batch) : Q := 0.

Definition predictive_sample (m : unit) (x : Point) (z : Q) : Q := z.

Definition condition_on_observations (m : unit) (X : Batch) (y : list Q) : unit := m.

Definition qExpectedImprovement (m : unit) (best_f : Q) (X : Batch) : Q :=
  tensor_sum (concat X).

Definition problem (x : Point) : Q := 1.

Definition smoke : option string := Some "1"%string.

End Sample.

Section Engine.

(** The pseudo-random stream that the seed fixes. *)
Variable unif : nat → Q.

(** The local gradient-based maximiser, external: the update it
    proposes for coordinate [i] of point [j] of the joint batch [X],
    and its stopping criterion. *)
Variable ascent_direction : (Batch → Q) → Batch → nat → nat → Q.
Variable converged : (Batch → Q) → Batch → bool.

(** The surrogate model, external (section 3): posterior mean of a
    [q = 1] batch, a draw from the predictive distribution at a point
    for a base sample, conditioning on hypothetical observations. *)
Variable Model : Type.
Variable SingleTaskMultiFidelityGP : list Point → list Q → Model.
Variable fit_gpytorch_mll : Model → Model.
Variable posterior_mean : Model → Batch → Q.
Variable predictive_sample : Model → Point → Q → Q.
Variable condition_on_observations : Model → Batch → list Q → Model.
Variable base_sample : nat → Q.
Variable qExpectedImprovement : Model → Q → Batch → Q.

(** The test objective, [AugmentedHartmann(negate=True)], external. *)
Variable problem : Point → Q.

(** [os.environ.get("SMOKE_TEST")] *)
Variable SMOKE_TEST : option string.

(** Constants of the library that the spec leaves open: the [eps] of
    the inverse-cost-weighted utility when the caller gives none, the
    radius of the perturbation of the one-shot seeds, and the options of
    the optimiser when the caller gives none. *)
Variable default_min_cost : Q.
Variable perturbation : Q.
Variable default_options : OptimizeOptions.

(** Python truthiness of an optional string. *)
Definition truthy (v : option string) : bool :=
  match v with
  | None => false
  | Some s => negb (String.eqb s "")
  end.

(** *** Raw samples *)

(** Modelled from the spec: section 4.6, [raw_samples] heuristic
    candidate batches, quasi-random coverage of the box; the stream is
    read from position [pos] on. *)
Definition raw_point (b : Bounds) (pos : nat) : Point :=
  clamp_point b (unnormalize b (fmap (λ i, unif (pos + i)%nat) (seq 0 (length b)))).

Definition raw_batch (b : Bounds) (q' pos : nat) : Batch :=
  fmap (λ j, raw_point b (pos + j * length b)%nat) (seq 0 q').

Definition raw_candidates (b : Bounds) (q' n pos : nat) : list Batch :=
  fmap (λ k, raw_batch b q' (pos + k * (q' * length b))%nat) (seq 0 n).

(** *** Local maximisation *)

Definition ascent_step (f : Batch → Q) (b : Bounds) (X : Batch) : Batch :=
  clamp_batch b (imap (λ j x, imap (λ i xi, xi + ascent_direction f X j i) x) X).

Fixpoint local_maximize (f : Batch → Q) (b : Bounds) (iters : nat) (X : Batch) : Batch :=
  match iters with
  | O => X
  | S n => if converged f X then X else local_maximize f b n (ascent_step f b X)
  end.

Definition score (f : Batch → Q) (Xs : list Batch) : list (Batch * Q) :=
  fmap (λ X, (X, f X)) Xs.

(** The restarts, [batch_limit] of them per pass. *)
Definition run_restarts (f : Batch → Q) (b : Bounds) (options : OptimizeOptions)
    (starts : list Batch) : list Batch :=
  concat ((λ pass : list Batch, local_maximize f b (maxiter options) <$> pass) <$>
          split_restarts (batch_limit options) starts).

(** The best restart, or the best initial candidate when the restarts
    are degenerate. *)
Definition best_candidate (f : Batch → Q) (pool finals : list Batch) : option (Batch * Q) :=
  max_reduction (if all_identical (score f finals)
                 then score f pool else score f finals).

(** Modelled from the spec: [optimize_acqf] of [botorch.optim.optimize]
    is not among the sources.  Sections 4.6 and 7: validation first;
    the initial points are the given ones, or [num_restarts] of
    [raw_samples] raw candidates, the highest-valued ones; a local
    maximiser runs from each start for at most [maxiter] iterations,
    the restarts being processed [batch_limit] at a time; the best
    restart wins, the first on a tie; when all restarts end at the same
    value the best initial candidate is returned instead.  Every
    coordinate is clamped to the box at every step.  A lookahead
    acquisition is optimised over its [q] candidates and its inner
    points jointly, and the [q] candidates are returned. *)
Definition optimize_acqf (acq_function : AcquisitionFunction) (bounds : Bounds)
    (q num_restarts raw_samples : nat)
    (batch_initial_conditions : option (list Batch))
    (options : OptimizeOptions) : M (Batch * Q) :=
  _ ← count_optimizer_call;
  if negb (valid_bounds bounds) then raise (ValidationError "bounds")
  else if (q <? 1)%nat then raise (ValidationError "q")
  else
    let q' := (q + num_inner acq_function)%nat in
    let f := forward acq_function in
    pool ← match batch_initial_conditions with
            | Some X_init => mret (clamp_batch bounds <$> X_init)
            | None =>
                pos ← get_rng;
                _ ← advance_rng (raw_samples * (q' * length bounds));
                mret (raw_candidates bounds q' raw_samples pos)
            end;
    let starts :=
      match batch_initial_conditions with
      | Some _ => pool
      | None => select_restarts num_restarts (score f pool)
      end in
    let finals := run_restarts f bounds options starts in
    match best_candidate f pool finals with
    | None => raise NoCandidates
    | Some (X, v) => mret (take q X, v)
    end.

(** The initial candidates of a call: the given initial conditions,
    clamped, or the raw samples drawn at the current stream position. *)
Definition initial_pool (acq_function : AcquisitionFunction) (bounds : Bounds)
    (q raw_samples : nat) (batch_initial_conditions : option (list Batch))
    (w : World) : list Batch :=
  match batch_initial_conditions with
  | Some X_init => clamp_batch bounds <$> X_init
  | None => raw_candidates bounds (q + num_inner acq_function) raw_samples (rng w)
  end.

(** *** The knowledge-gradient acquisition *)

Record qMultiFidelityKnowledgeGradient := {
  kg_model : Model;
  num_fantasies : nat;
  current_value : Q;
  kg_cost_aware_utility : InverseCostWeightedUtility;
  kg_project : Batch → Batch
}.

(** Modelled from the spec: section 7, [num_fantasies < 1] is a
    validation error, raised at construction. *)
Definition qMultiFidelityKnowledgeGradient_init (model : Model) (num_fantasies : nat)
    (current_value : Q) (cost_aware_utility : InverseCostWeightedUtility)
    (project : Batch → Batch) : M qMultiFidelityKnowledgeGradient :=
  if (num_fantasies <? 1)%nat then raise (ValidationError "num_fantasies")
  else mret {| kg_model := model; num_fantasies := num_fantasies;
               current_value := current_value;
               kg_cost_aware_utility := cost_aware_utility;
               kg_project := project |}.

(** Modelled from the spec: section 4.5, steps 1 to 4 for fantasy [k]
    with inner maximiser [x_k]: hypothetical observations of the
    candidates [X] for the base sample of [k], the fantasy model
    conditioned on them, its projected posterior mean at [x_k], minus
    the captured current value. *)
Definition fantasy_gain (a : qMultiFidelityKnowledgeGradient) (X : Batch) (k : nat) (x_k : Point) : Q :=
  let y := fmap (λ x, predictive_sample (kg_model a) x (base_sample k)) X in
  let fantasy_model := condition_on_observations (kg_model a) X y in
  posterior_mean fantasy_model (kg_project a [x_k]) - current_value a.

(** Modelled from the spec: section 4.5, steps 5 and 6.  The joint
    batch holds the candidates and then one inner point per fantasy. *)
Definition kg_forward (a : qMultiFidelityKnowledgeGradient) (X_full : Batch) : Q :=
  let q := (length X_full - num_fantasies a)%nat in
  let X := take q X_full in
  let raw_value := tensor_sum (imap (fantasy_gain a X) (drop q X_full))
                   / Q_of_nat (num_fantasies a) in
  cost_aware_utility_call (kg_cost_aware_utility a) X raw_value.

Definition qMFKG_as_acqf (a : qMultiFidelityKnowledgeGradient) : AcquisitionFunction :=
  {| forward := kg_forward a; num_inner := num_fantasies a |}.

(** [PosteriorMean(model)] *)
Definition PosteriorMean (model : Model) : AcquisitionFunction :=
  {| forward := posterior_mean model; num_inner := 0 |}.

(** *** One-shot seeding *)

Definition perturb (b : Bounds) (x : Point) (pos : nat) : Point :=
  clamp_point b (imap (λ i xi, xi + perturbation * (2 * unif (pos + i)%nat - 1)) x).

(** Modelled from the spec: [gen_one_shot_kg_initial_conditions] of
    [botorch.optim.initializers] is not among the sources.  Section
    4.7: the optimum of the Current-Value Estimator, the maximiser of
    the projected posterior mean (section 4.4), is perturbed within
    bounds to seed the [q] candidates and each fantasy's inner point,
    once per restart. *)
Definition gen_one_shot_kg_initial_conditions (acq_function : qMultiFidelityKnowledgeGradient)
    (bounds : Bounds) (q num_restarts raw_samples : nat) : M (list Batch) :=
  let value_function :=
    {| forward := λ X, posterior_mean (kg_model acq_function) (kg_project acq_function X);
       num_inner := 0 |} in
  '(X_star, _) ← optimize_acqf value_function bounds 1 num_restarts raw_samples
                   None default_options;
  let x_star := default [] (head (kg_project acq_function X_star)) in
  let q' := (q + num_fantasies acq_function)%nat in
  pos ← get_rng;
  _ ← advance_rng (num_restarts * (q' * length bounds));
  mret (fmap (λ r, fmap (λ j, perturb bounds x_star (pos + (r * q' + j) * length bounds)%nat)
                      (seq 0 q'))
            (seq 0 num_restarts)).

(** *** The notebook: model initialisation *)

Definition tensor_rand (n d : nat) : M (list Point) :=
  pos ← get_rng;
  _ ← advance_rng (n * d);
  mret (fmap (λ r, fmap (λ i, unif (pos + r * d + i)%nat) (seq 0 d)) (seq 0 n)).

(** [train_x = torch.rand(n, 7); train_obj = problem(train_x).unsqueeze(-1)] *)
Definition generate_initial_data (n : nat) : M (list Point * list Q) :=
  train_x ← tensor_rand n 7;
  let train_obj := fmap problem train_x in
  mret (train_x, train_obj).

(** The marginal log-likelihood object that [initialize_model] returns
    next to the model refers to that model, and [fit_gpytorch_mll(mll)]
    updates the model in place: the uses of [model] after it are uses of
    the fitted model, which [fit_gpytorch_mll] returns here.  Fitting is
    external and taken to succeed. *)
Definition initialize_model (train_x : list Point) (train_obj : list Q) : Model :=
  SingleTaskMultiFidelityGP train_x train_obj.

(** *** The notebook: configuration *)

Definition bounds : Bounds :=
  bounds_of_rows (replicate 7 0) (replicate 7 1).

(** [InverseCostWeightedUtility(cost_model=cost_model)] *)
Definition cost_aware_utility : InverseCostWeightedUtility :=
  {| icw_cost_model := cost_model; min_cost := default_min_cost |}.

Definition NUM_RESTARTS : nat := if negb (truthy SMOKE_TEST) then 10 else 2.
Definition RAW_SAMPLES : nat := if negb (truthy SMOKE_TEST) then 512 else 4.
Definition N_ITER : nat := if negb (truthy SMOKE_TEST) then 6 else 2.

(** *** The notebook: [get_mfkg] *)

Definition curr_val_acqf (model : Model) : FixedFeatureAcquisitionFunction :=
  {| ff_acq_function := PosteriorMean model;
     ff_d := 7; ff_columns := [6%nat]; ff_values := [1] |}.

Definition get_mfkg (model : Model) : M qMultiFidelityKnowledgeGradient :=
  '(_, current_value) ←
    optimize_acqf (FixedFeature_as_acqf (curr_val_acqf model)) (drop_last_column bounds) 1
      (if negb (truthy SMOKE_TEST) then 10 else 2)
      (if negb (truthy SMOKE_TEST) then 1024 else 4)
      None {| batch_limit := 10; maxiter := 200 |};
  qMultiFidelityKnowledgeGradient_init model
    (if negb (truthy SMOKE_TEST) then 128 else 2)
    current_value cost_aware_utility project.

(** *** The notebook: [optimize_mfkg_and_get_observation] *)

Definition optimize_mfkg_and_get_observation (mfkg_acqf : qMultiFidelityKnowledgeGradient)
  : M (Batch * list Q * Q) :=
  X_init ← gen_one_shot_kg_initial_conditions mfkg_acqf bounds 4 NUM_RESTARTS RAW_SAMPLES;
  '(candidates, _) ←
    optimize_acqf (qMFKG_as_acqf mfkg_acqf) bounds 4 NUM_RESTARTS RAW_SAMPLES
      (Some X_init) {| batch_limit := 5; maxiter := 200 |};
  let cost := tensor_sum (cost_model_call cost_model candidates) in
  let new_x := candidates in
  let new_obj := fmap problem new_x in
  _ ← print (PrintCandidates new_x);
  _ ← print (PrintObservations new_obj);
  mret (new_x, new_obj, cost).

(** *** The notebook: the loop *)

(** [model] is unbound until the first iteration has run. *)
Record LoopState := {
  train_x : list Point;
  train_obj : list Q;
  cumulative_cost : Q;
  model : option Model
}.

Definition mfkg_iteration (s : LoopState) : M LoopState :=
  let model := fit_gpytorch_mll (initialize_model (train_x s) (train_obj s)) in
  mfkg_acqf ← get_mfkg model;
  '(new_x, new_obj, cost) ← optimize_mfkg_and_get_observation mfkg_acqf;
  mret {| train_x := train_x s ++ new_x;
          train_obj := train_obj s ++ new_obj;
          cumulative_cost := cumulative_cost s + cost;
          model := Some model |}.

(** [for _ in range(n): ...] *)
Fixpoint loop (body : LoopState → M LoopState) (n : nat) (s : LoopState) : M LoopState :=
  match n with
  | O => mret s
  | S n' => s' ← body s; loop body n' s'
  end.

Definition init_state : M LoopState :=
  '(train_x, train_obj) ← generate_initial_data 16;
  mret {| train_x := train_x; train_obj := train_obj;
          cumulative_cost := 0; model := None |}.

Definition mfkg_loop (n : nat) : M LoopState :=
  s ← init_state; loop mfkg_iteration n s.

(** *** The notebook: [get_recommendation] *)

Definition rec_acqf (model : Model) : FixedFeatureAcquisitionFunction :=
  {| ff_acq_function := PosteriorMean model;
     ff_d := 7; ff_columns := [6%nat]; ff_values := [1] |}.

Definition get_recommendation (model : Model) : M Batch :=
  '(final_rec, _) ←
    optimize_acqf (FixedFeature_as_acqf (rec_acqf model)) (drop_last_column bounds) 1
      NUM_RESTARTS RAW_SAMPLES None {| batch_limit := 5; maxiter := 200 |};
  let final_rec := _construct_X_full (rec_acqf model) final_rec in
  let objective_value := fmap problem final_rec in
  _ ← print (PrintRecommendation final_rec objective_value);
  mret final_rec.

(** A use of the unbound name [model] raises [NameError]. *)
Definition recommend (s : LoopState) : M Batch :=
  match model s with
  | None => raise (NameError "model")
  | Some m =>
      final_rec ← get_recommendation m;
      _ ← print (PrintTotalCost (cumulative_cost s));
      mret final_rec
  end.

Definition mfkg_experiment : M (LoopState * Batch) :=
  s ← mfkg_loop N_ITER;
  final_rec ← recommend s;
  mret (s, final_rec).

(** *** The notebook: comparison with standard EI *)

Definition get_ei (model : Model) (best_f : Q) : FixedFeatureAcquisitionFunction :=
  {| ff_acq_function := {| forward := qExpectedImprovement model best_f; num_inner := 0 |};
     ff_d := 7; ff_columns := [6%nat]; ff_values := [1] |}.

Definition optimize_ei_and_get_observation (ei_acqf : FixedFeatureAcquisitionFunction)
  : M (Batch * list Q * Q) :=
  '(candidates, _) ←
    optimize_acqf (FixedFeature_as_acqf ei_acqf) (drop_last_column bounds) 4
      NUM_RESTARTS RAW_SAMPLES None {| batch_limit := 5; maxiter := 200 |};
  let candidates := _construct_X_full ei_acqf candidates in
  let cost := tensor_sum (cost_model_call cost_model candidates) in
  let new_x := candidates in
  let new_obj := fmap problem new_x in
  _ ← print (PrintCandidates new_x);
  _ ← print (PrintObservations new_obj);
  mret (new_x, new_obj, cost).

(** [Tensor.max()], which raises on an empty tensor. *)
Definition tensor_max (l : list Q) : M Q :=
  match l with
  | [] => raise (RuntimeError "max of an empty tensor")
  | x :: l' => mret (foldl Qmax x l')
  end.

Definition ei_iteration (s : LoopState) : M LoopState :=
  let model := fit_gpytorch_mll (initialize_model (train_x s) (train_obj s)) in
  best_f ← tensor_max (train_obj s);
  let ei_acqf := get_ei model best_f in
  '(new_x, new_obj, cost) ← optimize_ei_and_get_observation ei_acqf;
  mret {| train_x := train_x s ++ new_x;
          train_obj := train_obj s ++ new_obj;
          cumulative_cost := cumulative_cost s + cost;
          model := Some model |}.

Definition ei_loop (n : nat) : M LoopState :=
  s ← init_state; loop ei_iteration n s.

(** *** The notebook: the EI section and the whole run *)

(** [cumulative_cost = 0.0; train_x, train_obj = generate_initial_data(n=16)]:
    the dataset and the cost start afresh, while the global [model] is
    whatever the cells run before have left. *)
Definition ei_init (model_before : option Model) : M LoopState :=
  '(train_x, train_obj) ← generate_initial_data 16;
  mret {| train_x := train_x; train_obj := train_obj;
          cumulative_cost := 0; model := model_before |}.

Definition ei_run (n : nat) (model_before : option Model) : M LoopState :=
  s ← ei_init model_before; loop ei_iteration n s.

Definition ei_experiment (model_before : option Model) : M (LoopState * Batch) :=
  s ← ei_run N_ITER model_before;
  final_rec ← recommend s;
  mret (s, final_rec).

(** The cells in order: the MFKG experiment, then the EI comparison. *)
Definition notebook : M ((LoopState * Batch) * (LoopState * Batch)) :=
  mfkg ← mfkg_experiment;
  ei ← ei_experiment (model mfkg.1);
  mret (mfkg, ei).

(** The dataset as the observation step leaves it: one observed value
    per design point, the objective at that point, and seven columns
    per point. *)
Definition dataset_ok (s : LoopState) : Prop :=
  train_obj s = problem <$> train_x s ∧ Forall (λ x, length x = 7%nat) (train_x s).

(** The fidelity coordinate of a design point. *)
Definition fidelity (x : Point) : Q := default 0 (x !! 6%nat).

(** * Properties *)

(** ** Arithmetic of the tensors *)

Lemma Qlt_bool_iff (a b : Q) : Qlt_bool a b = true ↔ a < b.
Proof.
  unfold Qlt_bool. rewrite negb_true_iff. split.
  - intros H. apply Qnot_le_lt. intros Hle.
    apply Qle_bool_iff in Hle. congruence.
  - intros H. destruct (Qle_bool b a) eqn:E; [|done].
    apply Qle_bool_iff in E. lra.
Qed.

Lemma clamp_between (l u x : Q) : l <= u → l <= clamp l u x <= u.
Proof.
  intros Hlu. unfold clamp. split.
  - apply Q.min_glb; [apply Q.le_max_r | exact Hlu].
  - apply Q.le_min_r.
Qed.

Lemma tensor_sum_app (l k : list Q) :
  tensor_sum (l ++ k) == tensor_sum l + tensor_sum k.
Proof.
  induction l as [|a l IH]; simpl.
  - lra.
  - rewrite IH. lra.
Qed.

Lemma tensor_sum_perm (l k : list Q) : l ≡ₚ k → tensor_sum l == tensor_sum k.
Proof.
  induction 1 as [|a l k _ IH|a b l|l k m _ IH1 _ IH2]; simpl.
  - reflexivity.
  - rewrite IH. reflexivity.
  - lra.
  - rewrite IH1. exact IH2.
Qed.

Lemma Q_of_nat_S (n : nat) : Q_of_nat (S n) == Q_of_nat n + 1.
Proof.
  unfold Q_of_nat. rewrite Nat2Z.inj_succ, <- Z.add_1_r, inject_Z_plus. reflexivity.
Qed.

Lemma Q_of_nat_ge_1 (n : nat) : (1 ≤ n)%nat → 1 <= Q_of_nat n.
Proof.
  intros H. unfold Q_of_nat. change 1 with (inject_Z 1).
  rewrite <- Zle_Qle. lia.
Qed.

Lemma tensor_sum_lower_bound (c : Q) (l : list Q) :
  Forall (λ x, c <= x) l → Q_of_nat (length l) * c <= tensor_sum l.
Proof.
  induction 1 as [|x l Hx _ IH].
  - change (0 * c <= 0). lra.
  - cbn [length tensor_sum foldr]. fold (tensor_sum l).
    rewrite Q_of_nat_S. nra.
Qed.

Lemma tensor_sum_const (c : Q) (l : list Q) :
  Forall (λ x, x == c) l → tensor_sum l == Q_of_nat (length l) * c.
Proof.
  induction 1 as [|x l Hx _ IH].
  - change (0 == 0 * c). lra.
  - cbn [length tensor_sum foldr]. fold (tensor_sum l).
    rewrite Q_of_nat_S, IH, Hx. ring.
Qed.

(** ** The box *)

Lemma valid_bounds_lookup (b : Bounds) (i : nat) (l u : Q) :
  valid_bounds b = true → b !! i = Some (l, u) → l < u.
Proof.
  unfold valid_bounds. rewrite forallb_forall. intros Hall Hi.
  apply Qlt_bool_iff.
  apply (Hall (l, u)). apply list_elem_of_In. eapply list_elem_of_lookup_2, Hi.
Qed.

Lemma clamp_point_in_box (b : Bounds) (x : Point) :
  valid_bounds b = true → in_box b (clamp_point b x).
Proof.
  intros Hb i xi Hi. unfold clamp_point in Hi.
  apply lookup_zip_with_Some in Hi as ([l u] & x0 & -> & Hbi & _).
  exists l, u. unfold lower, upper. rewrite !list_lookup_fmap, Hbi. simpl.
  split; [done|]. split; [done|].
  apply clamp_between. apply Qlt_le_weak. eapply valid_bounds_lookup; eauto.
Qed.

Lemma clamp_point_length (b : Bounds) (x : Point) :
  length x = length b → length (clamp_point b x) = length b.
Proof. intros H. unfold clamp_point. rewrite length_zip_with. lia. Qed.

Lemma clamp_batch_in_box (b : Bounds) (X : Batch) :
  valid_bounds b = true → Forall (in_box b) (clamp_batch b X).
Proof.
  intros Hb. unfold clamp_batch. apply Forall_fmap, Forall_forall.
  intros x _. by apply clamp_point_in_box.
Qed.

Lemma clamp_batch_shape (b : Bounds) (n : nat) (X : Batch) :
  has_shape n (length b) X → has_shape n (length b) (clamp_batch b X).
Proof.
  intros [Hn Hrows]. unfold clamp_batch. split.
  - by rewrite length_fmap.
  - apply Forall_fmap. eapply Forall_impl; [exact Hrows|].
    intros x Hx. simpl. by apply clamp_point_length.
Qed.

Lemma drop_last_column_valid (b : Bounds) :
  valid_bounds b = true → valid_bounds (drop_last_column b) = true.
Proof.
  unfold valid_bounds, drop_last_column. rewrite !forallb_forall.
  intros H lu Hin. apply H. apply list_elem_of_In.
  apply list_elem_of_In in Hin. apply elem_of_take in Hin as (i & Hi & _).
  eapply list_elem_of_lookup_2, Hi.
Qed.

Lemma in_boxb_spec (b : Bounds) (x : Point) : in_boxb b x = true ↔ in_box b x.
Proof.
  unfold in_boxb, in_box, lower, upper. rewrite andb_true_iff, forallb_forall.
  rewrite Nat.leb_le. split.
  - intros [Hlen Hall] i xi Hi.
    destruct (b !! i) as [[l u]|] eqn:Hbi.
    + exists l, u. rewrite !list_lookup_fmap, Hbi. simpl. split; [done|]. split; [done|].
      assert (In ((l, u), xi) (zip b x)) as Hin.
      { apply list_elem_of_In. apply (list_elem_of_lookup_2 _ i).
        by apply lookup_zip_Some. }
      apply Hall in Hin. simpl in Hin. apply andb_true_iff in Hin as [H1 H2].
      by rewrite <- !Qle_bool_iff.
    + apply lookup_ge_None in Hbi. apply lookup_lt_Some in Hi. lia.
  - intros H. split.
    + destruct (decide (length x ≤ length b)%nat) as [|Hn]; [done|].
      destruct (lookup_lt_is_Some_2 x (length b)) as [xi Hxi]; [lia|].
      destruct (H _ _ Hxi) as (l & u & Hl & _).
      rewrite list_lookup_fmap in Hl. apply fmap_Some in Hl as (lu & Hl & _).
      apply lookup_lt_Some in Hl. lia.
    + intros [[l u] xi] Hin. apply list_elem_of_In in Hin.
      apply list_elem_of_lookup in Hin as (i & Hi).
      apply lookup_zip_Some in Hi as [Hbi Hxi].
      destruct (H _ _ Hxi) as (l' & u' & Hl & Hu & Hle).
      rewrite list_lookup_fmap, Hbi in Hl. rewrite list_lookup_fmap, Hbi in Hu.
      simpl in *. simplify_eq. apply andb_true_iff.
      by rewrite !Qle_bool_iff.
Qed.

(** ** The pieces of the optimiser *)

Lemma insert_by_value_perm (c : Batch * Q) (l : list (Batch * Q)) :
  insert_by_value c l ≡ₚ c :: l.
Proof.
  induction l as [|c' l IH]; simpl; [done|].
  destruct (Qle_bool c'.2 c.2); [done|].
  rewrite IH. apply Permutation_swap.
Qed.

Lemma sort_by_value_perm (l : list (Batch * Q)) : sort_by_value l ≡ₚ l.
Proof.
  induction l as [|c l IH]; simpl; [done|].
  rewrite insert_by_value_perm. by rewrite IH.
Qed.

Lemma select_restarts_elem (f : Batch → Q) (n : nat) (Xs : list Batch) (X : Batch) :
  X ∈ select_restarts n (score f Xs) → X ∈ Xs.
Proof.
  unfold select_restarts, score. intros H.
  apply list_elem_of_fmap in H as ([X' v] & -> & H).
  apply elem_of_take in H as (i & H & _).
  apply list_elem_of_lookup_2 in H. rewrite sort_by_value_perm in H.
  apply list_elem_of_fmap in H as (X'' & Heq & H). by simplify_eq.
Qed.

Lemma concat_chunks {A} (fuel n : nat) (l : list A) :
  (length l ≤ fuel)%nat → (0 < n)%nat → concat (chunks fuel n l) = l.
Proof.
  revert l. induction fuel as [|fuel IH]; intros l Hlen Hn.
  - destruct l; [done|]. simpl in Hlen. lia.
  - destruct l as [|a l]; [done|].
    cbn [chunks concat]. rewrite IH; [apply take_drop| |done].
    rewrite length_drop. simpl in *. lia.
Qed.

Lemma concat_split_restarts {A} (limit : nat) (l : list A) :
  concat (split_restarts limit l) = l.
Proof.
  destruct limit as [|n]; simpl.
  - apply app_nil_r.
  - apply concat_chunks; lia.
Qed.

Lemma concat_passes {A B} (g : A → B) (passes : list (list A)) :
  concat ((λ pass : list A, g <$> pass) <$> passes) = g <$> concat passes.
Proof.
  induction passes as [|p passes IH]; csimpl; [done|].
  by rewrite fmap_app, IH.
Qed.

Lemma foldl_better_elem (c : Batch * Q) (l : list (Batch * Q)) :
  foldl better c l = c ∨ foldl better c l ∈ l.
Proof.
  revert c. induction l as [|c' l IH]; intros c; simpl; [by left|].
  destruct (IH (better c c')) as [H|H].
  - rewrite H. unfold better. destruct (Qlt_bool c.2 c'.2).
    + right. apply list_elem_of_here.
    + by left.
  - right. by apply list_elem_of_further.
Qed.

Lemma max_reduction_elem (l : list (Batch * Q)) (c : Batch * Q) :
  max_reduction l = Some c → c ∈ l.
Proof.
  destruct l as [|c0 l]; simpl; [done|]. intros [= <-].
  destruct (foldl_better_elem c0 l) as [->|H].
  - apply list_elem_of_here.
  - by apply list_elem_of_further.
Qed.

Lemma max_reduction_is_Some (l : list (Batch * Q)) :
  l ≠ [] → is_Some (max_reduction l).
Proof. destruct l; [done|]. simpl. eauto. Qed.

(** The best restart is at least as good as every restart. *)
Lemma foldl_better_ge (c : Batch * Q) (l : list (Batch * Q)) :
  c.2 <= (foldl better c l).2 ∧ Forall (λ c', c'.2 <= (foldl better c l).2) l.
Proof.
  revert c. induction l as [|c' l IH]; intros c; simpl.
  - split; [lra|constructor].
  - destruct (IH (better c c')) as [H1 H2].
    assert (c.2 <= (better c c').2 ∧ c'.2 <= (better c c').2) as [Hc Hc'].
    { unfold better. destruct (Qlt_bool c.2 c'.2) eqn:E.
      - apply Qlt_bool_iff in E. split; lra.
      - split; [lra|]. unfold Qlt_bool in E. apply negb_false_iff in E.
        by apply Qle_bool_iff in E. }
    split; [lra|]. constructor; [lra|done].
Qed.

Lemma max_reduction_ge (l : list (Batch * Q)) (c : Batch * Q) :
  max_reduction l = Some c → Forall (λ c', c'.2 <= c.2) l.
Proof.
  destruct l as [|c0 l]; simpl; [done|]. intros [= <-].
  destruct (foldl_better_ge c0 l). by constructor.
Qed.

Lemma local_maximize_inv (P : Batch → Prop) (f : Batch → Q) (b : Bounds) (n : nat) (X : Batch) :
  (∀ X, P X → P (ascent_step f b X)) → P X → P (local_maximize f b n X).
Proof.
  intros Hstep. revert X. induction n as [|n IH]; intros X HX; simpl; [done|].
  destruct (converged f X); [done|]. by apply IH, Hstep.
Qed.

Lemma ascent_step_in_box (f : Batch → Q) (b : Bounds) (X : Batch) :
  valid_bounds b = true → Forall (in_box b) (ascent_step f b X).
Proof. intros Hb. by apply clamp_batch_in_box. Qed.

Lemma ascent_step_shape (f : Batch → Q) (b : Bounds) (n : nat) (X : Batch) :
  has_shape n (length b) X → has_shape n (length b) (ascent_step f b X).
Proof.
  intros [Hn Hrows]. apply clamp_batch_shape. split.
  - by rewrite length_imap.
  - apply Forall_forall. intros x Hx.
    apply list_elem_of_lookup in Hx as (j & Hj).
    apply list_lookup_imap_Some in Hj as (x0 & Hj & ->).
    rewrite length_imap. eapply Forall_forall in Hrows; [exact Hrows|].
    eapply list_elem_of_lookup_2, Hj.
Qed.

Lemma raw_point_length (b : Bounds) (pos : nat) : length (raw_point b pos) = length b.
Proof.
  unfold raw_point. apply clamp_point_length. unfold unnormalize.
  rewrite length_zip_with, length_fmap, length_seq. lia.
Qed.

Lemma raw_candidates_shape (b : Bounds) (q' n pos : nat) :
  Forall (has_shape q' (length b)) (raw_candidates b q' n pos).
Proof.
  unfold raw_candidates. apply Forall_fmap, Forall_forall. intros k _. simpl.
  unfold raw_batch. split.
  - by rewrite length_fmap, length_seq.
  - apply Forall_fmap, Forall_forall. intros j _. apply raw_point_length.
Qed.

Lemma raw_candidates_in_box (b : Bounds) (q' n pos : nat) :
  valid_bounds b = true → Forall (Forall (in_box b)) (raw_candidates b q' n pos).
Proof.
  intros Hb. unfold raw_candidates. apply Forall_fmap, Forall_forall. intros k _. simpl.
  unfold raw_batch. apply Forall_fmap, Forall_forall. intros j _.
  by apply clamp_point_in_box.
Qed.

Lemma raw_candidates_length (b : Bounds) (q' n pos : nat) :
  length (raw_candidates b q' n pos) = n.
Proof. unfold raw_candidates. by rewrite length_fmap, length_seq. Qed.

(** ** Computations that return *)

Lemma bind_inr {A B} (m : M A) (k : A → M B) (w : World) (r : B * World) :
  (m ≫= k) w = inr r ↔ ∃ a w1, m w = inr (a, w1) ∧ k a w1 = inr r.
Proof.
  unfold mbind, M_bind. split.
  - destruct (m w) as [e|[a w1]]; [done|]. eauto.
  - intros (a & w1 & -> & H). done.
Qed.

(** The first computation of a bind returned as [H] says. *)
Ltac bind_with H :=
  apply bind_inr; eexists _, _; split; [exact H|].

(** ** The optimiser *)

Lemma run_restarts_eq (f : Batch → Q) (b : Bounds) (options : OptimizeOptions)
    (starts : list Batch) :
  run_restarts f b options starts = local_maximize f b (maxiter options) <$> starts.
Proof. unfold run_restarts. by rewrite concat_passes, concat_split_restarts. Qed.

Lemma best_candidate_elem (f : Batch → Q) (pool finals : list Batch) (X : Batch) (v : Q) :
  best_candidate f pool finals = Some (X, v) →
  v = f X ∧ (X ∈ pool ∨ X ∈ finals).
Proof.
  unfold best_candidate. intros H. apply max_reduction_elem in H.
  destruct (all_identical (score f finals));
    apply list_elem_of_fmap in H as (X' & [= -> ->] & H); auto.
Qed.

Lemma best_candidate_is_Some (f : Batch → Q) (pool finals : list Batch) :
  pool ≠ [] → is_Some (best_candidate f pool finals).
Proof.
  intros Hpool. unfold best_candidate. apply max_reduction_is_Some.
  destruct (all_identical _) eqn:E.
  - unfold score. by destruct pool.
  - destruct finals; [done|]. unfold score. by rewrite fmap_cons.
Qed.

Lemma optimize_acqf_inv (P : Batch → Prop) acq b q nr rs ics opts w X v w' :
  optimize_acqf acq b q nr rs ics opts w = inr ((X, v), w') →
  (∀ X, P X → P (ascent_step (forward acq) b X)) →
  Forall P (initial_pool acq b q rs ics w) →
  ∃ X_full, X = take q X_full ∧ v = forward acq X_full ∧ P X_full.
Proof.
  unfold optimize_acqf, initial_pool. intros H Hstep Hpool.
  apply bind_inr in H as ([] & w1 & Hw1 & H).
  injection Hw1 as <-.
  destruct (valid_bounds b); [|done]. simpl in H.
  destruct (q <? 1)%nat; [done|].
  apply bind_inr in H as (pool & w2 & Hw2 & H).
  assert (Forall P pool) as HP.
  { destruct ics as [Xs|]; [by injection Hw2 as <- _|].
    by injection Hw2 as <- _. }
  destruct (best_candidate _ _ _) as [[X' v']|] eqn:Hbest; [|done].
  injection H as <- <- _. exists X'.
  apply best_candidate_elem in Hbest as [-> Hin].
  split; [done|]. split; [done|].
  rewrite Forall_forall in HP.
  destruct Hin as [Hin|Hin]; [by apply HP|].
  rewrite run_restarts_eq in Hin.
  apply list_elem_of_fmap in Hin as (X0 & -> & Hin).
  apply local_maximize_inv; [done|]. apply HP.
  destruct ics; [done|]. by eapply select_restarts_elem.
Qed.

Lemma optimize_acqf_effects acq b q nr rs ics opts w r w' :
  optimize_acqf acq b q nr rs ics opts w = inr (r, w') →
  valid_bounds b = true ∧ (1 ≤ q)%nat
  ∧ optimizer_calls w' = S (optimizer_calls w) ∧ stdout w' = stdout w.
Proof.
  unfold optimize_acqf. intros H.
  apply bind_inr in H as ([] & w1 & Hw1 & H).
  injection Hw1 as <-.
  destruct (valid_bounds b); [|done]. simpl in H.
  destruct (q <? 1)%nat eqn:Hq; [done|]. apply Nat.ltb_ge in Hq.
  apply bind_inr in H as (pool & w2 & Hw2 & H).
  destruct (best_candidate _ _ _) as [[X' v']|]; [|done].
  injection H as <- <-.
  split; [done|]. split; [done|].
  destruct ics; by injection Hw2 as <- <-.
Qed.

Lemma optimize_acqf_returns acq b q nr rs ics opts w :
  valid_bounds b = true → (1 ≤ q)%nat →
  initial_pool acq b q rs ics w ≠ [] →
  ∃ r w', optimize_acqf acq b q nr rs ics opts w = inr (r, w').
Proof.
  unfold optimize_acqf, initial_pool. intros Hb Hq Hpool.
  apply Nat.ltb_ge in Hq.
  unfold mbind at 1, M_bind, count_optimizer_call. rewrite Hb, Hq. simpl.
  destruct ics as [Xs|]; unfold mbind, M_bind; simpl.
  - destruct (best_candidate_is_Some (forward acq) (clamp_batch b <$> Xs)
      (run_restarts (forward acq) b opts (clamp_batch b <$> Xs)) Hpool) as [[X v] ->].
    eauto.
  - match goal with |- context [best_candidate ?f ?p ?l] =>
      destruct (best_candidate_is_Some f p l Hpool) as [[X v] ->] end.
    eauto.
Qed.

Lemma has_shape_take (q k d : nat) (X : Batch) :
  has_shape (q + k) d X → has_shape q d (take q X).
Proof.
  intros [Hn Hrows]. split.
  - rewrite length_take. lia.
  - by apply Forall_take.
Qed.

Lemma initial_pool_in_box acq b q rs ics w :
  valid_bounds b = true → Forall (Forall (in_box b)) (initial_pool acq b q rs ics w).
Proof.
  intros Hb. unfold initial_pool. destruct ics as [Xs|].
  - apply Forall_fmap, Forall_forall. intros X0 _. by apply clamp_batch_in_box.
  - by apply raw_candidates_in_box.
Qed.

Lemma initial_pool_shape acq b q rs ics w :
  match ics with
  | Some Xs => Forall (has_shape (q + num_inner acq) (length b)) Xs
  | None => True
  end →
  Forall (has_shape (q + num_inner acq) (length b)) (initial_pool acq b q rs ics w).
Proof.
  unfold initial_pool. destruct ics as [Xs|]; intros H.
  - apply Forall_fmap. eapply Forall_impl; [exact H|].
    intros X0 HX0. by apply clamp_batch_shape.
  - apply raw_candidates_shape.
Qed.

Lemma optimize_acqf_in_box acq b q nr rs ics opts w X v w' :
  optimize_acqf acq b q nr rs ics opts w = inr ((X, v), w') →
  Forall (in_box b) X.
Proof.
  intros H. destruct (optimize_acqf_effects _ _ _ _ _ _ _ _ _ _ H) as (Hb & _).
  destruct (optimize_acqf_inv (Forall (in_box b)) _ _ _ _ _ _ _ _ _ _ _ H)
    as (X_full & -> & _ & HX).
  - intros X0 _. by apply ascent_step_in_box.
  - by apply initial_pool_in_box.
  - by apply Forall_take.
Qed.

Lemma optimize_acqf_shape acq b q nr rs ics opts w X v w' :
  optimize_acqf acq b q nr rs ics opts w = inr ((X, v), w') →
  match ics with
  | Some Xs => Forall (has_shape (q + num_inner acq) (length b)) Xs
  | None => True
  end →
  has_shape q (length b) X
  ∧ ∃ X_full, X = take q X_full ∧ v = forward acq X_full
      ∧ has_shape (q + num_inner acq) (length b) X_full.
Proof.
  intros H Hics.
  destruct (optimize_acqf_inv (has_shape (q + num_inner acq) (length b))
              _ _ _ _ _ _ _ _ _ _ _ H) as (X_full & -> & -> & HX).
  - intros X0. apply ascent_step_shape.
  - by apply initial_pool_shape.
  - split; [by eapply has_shape_take|]. eauto.
Qed.

(** ** The notebook's configuration *)

Lemma bounds_valid : valid_bounds bounds = true.
Proof. reflexivity. Qed.

Lemma bounds_length : length bounds = 7%nat.
Proof. reflexivity. Qed.

Lemma free_bounds_valid : valid_bounds (drop_last_column bounds) = true.
Proof. reflexivity. Qed.

Lemma free_bounds_length : length (drop_last_column bounds) = 6%nat.
Proof. reflexivity. Qed.

Lemma NUM_RESTARTS_pos : (1 ≤ NUM_RESTARTS)%nat.
Proof. unfold NUM_RESTARTS. destruct (truthy SMOKE_TEST); simpl; lia. Qed.

Lemma RAW_SAMPLES_pos : (1 ≤ RAW_SAMPLES)%nat.
Proof. unfold RAW_SAMPLES. destruct (truthy SMOKE_TEST); simpl; lia. Qed.

Lemma in_box_take (n : nat) (b : Bounds) (x : Point) :
  in_box (take n b) x → in_box b x.
Proof.
  intros H i xi Hi. destruct (H i xi Hi) as (l & u & Hl & Hu & Hle).
  exists l, u. unfold lower, upper in *.
  rewrite list_lookup_fmap in Hl. rewrite list_lookup_fmap in Hu.
  rewrite !list_lookup_fmap.
  destruct (take n b !! i) as [lu|] eqn:E; [|done].
  apply lookup_take_Some in E as [E _]. by rewrite E.
Qed.

Lemma in_box_snoc (b : Bounds) (x : Point) (y l u : Q) :
  in_box b x → b !! length x = Some (l, u) → l <= y <= u → in_box b (x ++ [y]).
Proof.
  intros Hx Hb Hy i xi Hi.
  apply lookup_app_Some in Hi as [Hi|[Hge Hi]]; [by apply Hx|].
  apply list_lookup_singleton_Some in Hi as [Hi ->].
  assert (i = length x) as -> by lia.
  exists l, u. unfold lower, upper. rewrite !list_lookup_fmap, Hb. done.
Qed.

(** ** Fixed features *)

Lemma fill_last_column (ff : FixedFeatureAcquisitionFunction) (x : Point) :
  ff_d ff = 7%nat → ff_columns ff = [6%nat] → ff_values ff = [1] →
  length x = 6%nat → fill_columns ff (ff_d ff) 0 x = x ++ [1].
Proof.
  destruct ff as [acq d cols vals]. simpl. intros -> -> -> Hx.
  destruct x as [|x0 [|x1 [|x2 [|x3 [|x4 [|x5 [|x6 x]]]]]]]; try done.
Qed.

Lemma construct_X_full_last_column (ff : FixedFeatureAcquisitionFunction) (n : nat) (X : Batch) :
  ff_d ff = 7%nat → ff_columns ff = [6%nat] → ff_values ff = [1] →
  has_shape n 6 X → _construct_X_full ff X = (λ x, x ++ [1]) <$> X.
Proof.
  intros Hd Hc Hv [_ Hrows]. unfold _construct_X_full.
  apply Forall_fmap_ext_1. eapply Forall_impl; [exact Hrows|].
  intros x Hx. by apply fill_last_column.
Qed.

Lemma full_batch_shape (n : nat) (X : Batch) :
  has_shape n 6 X → has_shape n 7 ((λ x, x ++ [1]) <$> X).
Proof.
  intros [Hn Hrows]. split; [by rewrite length_fmap|].
  apply Forall_fmap. eapply Forall_impl; [exact Hrows|].
  intros x Hx. simpl. rewrite length_app, Hx. done.
Qed.

Lemma full_batch_fidelity (n : nat) (X : Batch) :
  has_shape n 6 X → Forall (λ x, x !! 6%nat = Some 1) ((λ x, x ++ [1]) <$> X).
Proof.
  intros [_ Hrows]. apply Forall_fmap. eapply Forall_impl; [exact Hrows|].
  intros x Hx. simpl in *. rewrite lookup_app_r by lia. by rewrite Hx.
Qed.

Lemma full_batch_in_box (n : nat) (X : Batch) :
  has_shape n 6 X → Forall (in_box (drop_last_column bounds)) X →
  Forall (in_box bounds) ((λ x, x ++ [1]) <$> X).
Proof.
  intros [_ Hrows] Hbox. apply Forall_fmap.
  rewrite Forall_forall in Hrows. rewrite Forall_forall in Hbox.
  apply Forall_forall. intros x Hel.
  pose proof (Hrows x Hel) as Hx. pose proof (Hbox x Hel) as Hin. simpl in *.
  apply (in_box_snoc _ _ _ 0 1).
  - by eapply in_box_take.
  - by rewrite Hx.
  - lra.
Qed.

(** ** The optimiser on raw samples *)

Lemma optimize_acqf_generated acq b q nr rs opts w :
  valid_bounds b = true → (1 ≤ q)%nat → (1 ≤ rs)%nat →
  ∃ X v w', optimize_acqf acq b q nr rs None opts w = inr ((X, v), w')
    ∧ has_shape q (length b) X ∧ Forall (in_box b) X
    ∧ (num_inner acq = 0%nat → v = forward acq X)
    ∧ optimizer_calls w' = S (optimizer_calls w) ∧ stdout w' = stdout w.
Proof.
  intros Hb Hq Hrs.
  destruct (optimize_acqf_returns acq b q nr rs None opts w Hb Hq)
    as ([X v] & w'' & H).
  { unfold initial_pool. intros Hnil.
    apply (f_equal length) in Hnil. rewrite raw_candidates_length in Hnil.
    simpl in Hnil. lia. }
  exists X, v, w''.
  destruct (optimize_acqf_effects _ _ _ _ _ _ _ _ _ _ H) as (_ & _ & Hc & Hs).
  destruct (optimize_acqf_shape _ _ _ _ _ _ _ _ _ _ _ H I)
    as (Hshape & X_full & HX & Hv & Hfull).
  repeat split; try done.
  - apply Hshape.
  - apply Hshape.
  - by eapply optimize_acqf_in_box.
  - intros Hinner. rewrite Hv, HX. f_equal.
    destruct Hfull as [Hlen _]. rewrite take_ge; [done|lia].
Qed.

(** ** [get_mfkg] *)

Lemma get_mfkg_returns (model : Model) (w : World) :
  ∃ X v a w',
    optimize_acqf (FixedFeature_as_acqf (curr_val_acqf model)) (drop_last_column bounds) 1
      (if negb (truthy SMOKE_TEST) then 10 else 2)
      (if negb (truthy SMOKE_TEST) then 1024 else 4)
      None {| batch_limit := 10; maxiter := 200 |} w = inr ((X, v), w')
    ∧ get_mfkg model w = inr (a, w')
    ∧ a = {| kg_model := model;
             num_fantasies := if negb (truthy SMOKE_TEST) then 128 else 2;
             current_value := v;
             kg_cost_aware_utility := cost_aware_utility;
             kg_project := project |}
    ∧ optimizer_calls w' = S (optimizer_calls w) ∧ stdout w' = stdout w.
Proof.
  destruct (optimize_acqf_generated (FixedFeature_as_acqf (curr_val_acqf model))
              (drop_last_column bounds) 1
              (if negb (truthy SMOKE_TEST) then 10 else 2)
              (if negb (truthy SMOKE_TEST) then 1024 else 4)
              {| batch_limit := 10; maxiter := 200 |} w)
    as (X & v & w' & H & _ & _ & _ & Hc & Hs).
  { reflexivity. }
  { lia. }
  { destruct (truthy SMOKE_TEST); simpl; lia. }
  exists X, v. eexists. exists w'.
  split; [exact H|]. split; [|split; [reflexivity|done]].
  unfold get_mfkg.
  bind_with H.
  unfold qMultiFidelityKnowledgeGradient_init.
  by destruct (truthy SMOKE_TEST).
Qed.

(** ** One-shot seeding and the MFKG step *)

Lemma project_shape (n d : nat) (X : Batch) :
  has_shape n d X → has_shape n d (project X).
Proof.
  intros [Hn Hrows]. unfold project, project_to_target_fidelity. split.
  - by rewrite length_fmap.
  - apply Forall_fmap. eapply Forall_impl; [exact Hrows|].
    intros x Hx. simpl. unfold project_point. by rewrite length_imap.
Qed.

Lemma perturb_length (x : Point) (pos : nat) :
  length x = 7%nat → length (perturb bounds x pos) = 7%nat.
Proof.
  intros Hx. unfold perturb. rewrite clamp_point_length; [done|].
  by rewrite length_imap.
Qed.

Lemma gen_one_shot_returns (a : qMultiFidelityKnowledgeGradient) (q nr rs : nat) (w : World) :
  kg_project a = project → (1 ≤ rs)%nat →
  ∃ Xs w', gen_one_shot_kg_initial_conditions a bounds q nr rs w = inr (Xs, w')
    ∧ length Xs = nr
    ∧ Forall (has_shape (q + num_fantasies a) 7) Xs
    ∧ optimizer_calls w' = S (optimizer_calls w) ∧ stdout w' = stdout w.
Proof.
  intros Hproj Hrs. unfold gen_one_shot_kg_initial_conditions.
  set (value_function := {| forward := _; num_inner := 0 |}).
  destruct (optimize_acqf_generated value_function bounds 1 nr rs default_options w
              bounds_valid) as (X & v & w1 & H & Hshape & _ & _ & Hc & Hs); [lia|done|].
  eexists. eexists. split.
  { bind_with H. reflexivity. }
  simpl. split; [by rewrite length_fmap, length_seq|]. split; [|done].
  apply Forall_fmap, Forall_forall. intros r _. simpl. split.
  - by rewrite length_fmap, length_seq.
  - apply Forall_fmap, Forall_forall. intros j _. simpl.
    apply perturb_length. rewrite Hproj.
    apply (project_shape 1 7) in Hshape. destruct Hshape as [Hlen Hrows].
    destruct (project X) as [|x rest]; [done|].
    simpl. by apply Forall_cons in Hrows as [Hx _].
Qed.

Lemma optimize_mfkg_returns (a : qMultiFidelityKnowledgeGradient) (w : World) :
  kg_project a = project →
  ∃ new_x w',
    optimize_mfkg_and_get_observation a w
      = inr ((new_x, problem <$> new_x, tensor_sum (cost_model_call cost_model new_x)), w')
    ∧ has_shape 4 7 new_x ∧ Forall (in_box bounds) new_x
    ∧ optimizer_calls w' = S (S (optimizer_calls w))
    ∧ stdout w' = PrintObservations (problem <$> new_x) :: PrintCandidates new_x :: stdout w.
Proof.
  intros Hproj.
  destruct (gen_one_shot_returns a 4 NUM_RESTARTS RAW_SAMPLES w Hproj RAW_SAMPLES_pos)
    as (Xs & w1 & Hgen & Hlen & Hshapes & Hc1 & Hs1).
  destruct (optimize_acqf_returns (qMFKG_as_acqf a) bounds 4 NUM_RESTARTS RAW_SAMPLES
              (Some Xs) {| batch_limit := 5; maxiter := 200 |} w1 bounds_valid)
    as ([X v] & w2 & Hopt); [lia| |].
  { unfold initial_pool. intros Hnil. apply (f_equal length) in Hnil.
    rewrite length_fmap, Hlen in Hnil. pose proof NUM_RESTARTS_pos. simpl in Hnil. lia. }
  destruct (optimize_acqf_effects _ _ _ _ _ _ _ _ _ _ Hopt) as (_ & _ & Hc2 & Hs2).
  destruct (optimize_acqf_shape _ _ _ _ _ _ _ _ _ _ _ Hopt Hshapes) as (Hshape & _).
  pose proof (optimize_acqf_in_box _ _ _ _ _ _ _ _ _ _ _ Hopt) as Hbox.
  exists X. eexists. split.
  { unfold optimize_mfkg_and_get_observation.
    bind_with Hgen.
    bind_with Hopt. reflexivity. }
  simpl. split; [done|]. split; [done|].
  split; [by rewrite Hc2, Hc1|]. by rewrite Hs2, Hs1.
Qed.

(** ** The configured cost model *)

Lemma point_cost_configured (x : Point) :
  point_cost cost_model x == 5 + default 0 (x !! 6%nat).
Proof.
  unfold point_cost, cost_model. cbn [fidelity_weights fixed_cost].
  rewrite map_to_list_singleton. simpl. ring.
Qed.

Lemma in_box_fidelity (x : Point) :
  length x = 7%nat → in_box bounds x →
  ∃ s, x !! 6%nat = Some s ∧ 0 <= s <= 1.
Proof.
  intros Hx Hbox.
  destruct (lookup_lt_is_Some_2 x 6) as [s Hs]; [lia|].
  exists s. split; [done|].
  destruct (Hbox _ _ Hs) as (l & u & Hl & Hu & Hle).
  vm_compute in Hl. vm_compute in Hu. by simplify_eq.
Qed.

Lemma batch_cost_lower_bound (X : Batch) :
  Forall (λ x, 0 <= default 0 (x !! 6%nat)) X →
  Q_of_nat (length X) * 5 <= tensor_sum (cost_model_call cost_model X).
Proof.
  intros H. unfold cost_model_call.
  rewrite <- (length_fmap (point_cost cost_model) X).
  apply tensor_sum_lower_bound, Forall_fmap.
  eapply Forall_impl; [exact H|]. intros x Hx. simpl in *.
  rewrite point_cost_configured. lra.
Qed.

Lemma batch_cost_in_box (n : nat) (X : Batch) :
  has_shape n 7 X → Forall (in_box bounds) X →
  Q_of_nat n * 5 <= tensor_sum (cost_model_call cost_model X).
Proof.
  intros [Hn Hrows] Hbox. rewrite <- Hn. apply batch_cost_lower_bound.
  rewrite Forall_forall in Hrows. rewrite Forall_forall in Hbox.
  apply Forall_forall. intros x Hel.
  destruct (in_box_fidelity x (Hrows x Hel) (Hbox x Hel)) as (s & -> & Hs).
  simpl. lra.
Qed.

(** ** The loop *)

Lemma mfkg_iteration_returns (s : LoopState) (w : World) :
  ∃ new_x w',
    mfkg_iteration s w
      = inr ({| train_x := train_x s ++ new_x;
                train_obj := train_obj s ++ (problem <$> new_x);
                cumulative_cost :=
                  cumulative_cost s + tensor_sum (cost_model_call cost_model new_x);
                model := Some (fit_gpytorch_mll
                                 (initialize_model (train_x s) (train_obj s))) |}, w')
    ∧ has_shape 4 7 new_x ∧ Forall (in_box bounds) new_x
    ∧ optimizer_calls w' = S (S (S (optimizer_calls w))).
Proof.
  set (m := fit_gpytorch_mll (initialize_model (train_x s) (train_obj s))).
  destruct (get_mfkg_returns m w) as (X & v & a & w1 & _ & Hget & Ha & Hc1 & _).
  destruct (optimize_mfkg_returns a w1) as (new_x & w2 & Hopt & Hshape & Hbox & Hc2 & _).
  { by rewrite Ha. }
  exists new_x, w2. split; [|split; [done|split; [done|by rewrite Hc2, Hc1]]].
  unfold mfkg_iteration. fold m.
  bind_with Hget.
  bind_with Hopt. reflexivity.
Qed.

Lemma loop_snoc (body : LoopState → M LoopState) (n : nat) (s : LoopState) (w : World) :
  loop body (S n) s w = (loop body n s ≫= body) w.
Proof.
  revert s w. induction n as [|n IH]; intros s w.
  - simpl. unfold mbind, M_bind, mret, M_ret.
    destruct (body s w) as [e|[s' w']]; done.
  - change (loop body (S (S n)) s w) with ((body s ≫= loop body (S n)) w).
    change (loop body (S n) s) with (body s ≫= loop body n).
    unfold mbind, M_bind. destruct (body s w) as [e|[s' w']]; [done|].
    apply IH.
Qed.

Lemma mfkg_loop_returns (n : nat) (s : LoopState) (w : World) :
  ∃ s' w', loop mfkg_iteration n s w = inr (s', w')
    ∧ length (train_x s') = (length (train_x s) + n * 4)%nat
    ∧ length (train_obj s') = (length (train_obj s) + n * 4)%nat
    ∧ train_x s `prefix_of` train_x s'
    ∧ train_obj s `prefix_of` train_obj s'
    ∧ cumulative_cost s + Q_of_nat n * 20 <= cumulative_cost s'.
Proof.
  revert s w. induction n as [|n IH]; intros s w.
  - exists s, w. simpl. repeat split; try done; try lia.
    change (Q_of_nat 0) with 0. lra.
  - destruct (mfkg_iteration_returns s w) as (new_x & w1 & Hit & Hshape & Hbox & _).
    match type of Hit with _ = inr (?s1, _) => set (s1' := s1) in * end.
    destruct (IH s1' w1) as (s' & w' & Hloop & Hx & Hobj & Hpx & Hpo & Hcost).
    exists s', w'. split.
    { simpl. apply bind_inr. eauto. }
    pose proof (batch_cost_in_box 4 new_x Hshape Hbox) as Hge.
    destruct Hshape as [Hlen _].
    subst s1'. cbn [train_x train_obj cumulative_cost] in *.
    rewrite length_app in Hx. rewrite length_app, length_fmap in Hobj.
    split; [lia|]. split; [lia|].
    split; [by etrans; [apply prefix_app_r|exact Hpx]|].
    split; [by etrans; [apply prefix_app_r|exact Hpo]|].
    rewrite Q_of_nat_S. change (Q_of_nat 4) with 4 in Hge. lra.
Qed.

Lemma init_state_returns (w : World) :
  ∃ s w', init_state w = inr (s, w')
    ∧ length (train_x s) = 16%nat ∧ length (train_obj s) = 16%nat
    ∧ cumulative_cost s = 0 ∧ Forall (λ x, length x = 7%nat) (train_x s).
Proof.
  eexists. eexists. split; [reflexivity|]. cbn [train_x train_obj cumulative_cost].
  split; [reflexivity|]. split; [reflexivity|]. split; [done|].
  repeat constructor.
Qed.

(** ** Optimising over the free dimensions *)

Lemma optimize_fixed_fidelity (ff : FixedFeatureAcquisitionFunction) (q : nat)
    (opts : OptimizeOptions) (w : World) :
  ff_d ff = 7%nat → ff_columns ff = [6%nat] → ff_values ff = [1] →
  num_inner (ff_acq_function ff) = 0%nat → (1 ≤ q)%nat →
  ∃ X v w',
    optimize_acqf (FixedFeature_as_acqf ff) (drop_last_column bounds) q
      NUM_RESTARTS RAW_SAMPLES None opts w = inr ((X, v), w')
    ∧ has_shape q 6 X
    ∧ _construct_X_full ff X = (λ x, x ++ [1]) <$> X
    ∧ v = forward (ff_acq_function ff) (_construct_X_full ff X)
    ∧ has_shape q 7 (_construct_X_full ff X)
    ∧ Forall (in_box bounds) (_construct_X_full ff X)
    ∧ Forall (λ x, x !! 6%nat = Some 1) (_construct_X_full ff X)
    ∧ optimizer_calls w' = S (optimizer_calls w) ∧ stdout w' = stdout w.
Proof.
  intros Hd Hc Hv Hinner Hq.
  destruct (optimize_acqf_generated (FixedFeature_as_acqf ff) (drop_last_column bounds) q
              NUM_RESTARTS RAW_SAMPLES opts w free_bounds_valid Hq RAW_SAMPLES_pos)
    as (X & v & w' & H & Hshape & Hbox & Hval & Hcalls & Hout).
  change (length (drop_last_column bounds)) with 6%nat in Hshape.
  exists X, v, w'. split; [exact H|]. split; [exact Hshape|].
  pose proof (construct_X_full_last_column ff q X Hd Hc Hv Hshape) as Hfull.
  split; [exact Hfull|]. split; [by apply Hval|].
  rewrite Hfull.
  split; [by apply full_batch_shape|].
  split; [by eapply full_batch_in_box|].
  split; [by eapply full_batch_fidelity|]. done.
Qed.

(** ** The recommendation and the EI step *)

Lemma get_recommendation_returns (model0 : Model) (w : World) :
  ∃ X v w1 w',
    optimize_acqf (FixedFeature_as_acqf (rec_acqf model0)) (drop_last_column bounds) 1
      NUM_RESTARTS RAW_SAMPLES None {| batch_limit := 5; maxiter := 200 |} w
      = inr ((X, v), w1)
    ∧ get_recommendation model0 w = inr (_construct_X_full (rec_acqf model0) X, w')
    ∧ v = posterior_mean model0 (_construct_X_full (rec_acqf model0) X)
    ∧ has_shape 1 7 (_construct_X_full (rec_acqf model0) X)
    ∧ Forall (in_box bounds) (_construct_X_full (rec_acqf model0) X)
    ∧ Forall (λ x, x !! 6%nat = Some 1) (_construct_X_full (rec_acqf model0) X)
    ∧ stdout w'
      = PrintRecommendation (_construct_X_full (rec_acqf model0) X)
          (problem <$> _construct_X_full (rec_acqf model0) X) :: stdout w.
Proof.
  destruct (optimize_fixed_fidelity (rec_acqf model0) 1
              {| batch_limit := 5; maxiter := 200 |} w)
    as (X & v & w1 & H & _ & _ & Hv & Hshape & Hbox & Hfid & _ & Hout); try done.
  exists X, v, w1. eexists. split; [exact H|]. split.
  { unfold get_recommendation. bind_with H. reflexivity. }
  simpl. by rewrite Hout.
Qed.

Lemma optimize_ei_returns (model0 : Model) (best_f : Q) (w : World) :
  ∃ X v w1 w',
    optimize_acqf (FixedFeature_as_acqf (get_ei model0 best_f)) (drop_last_column bounds) 4
      NUM_RESTARTS RAW_SAMPLES None {| batch_limit := 5; maxiter := 200 |} w
      = inr ((X, v), w1)
    ∧ optimize_ei_and_get_observation (get_ei model0 best_f) w
      = inr ((_construct_X_full (get_ei model0 best_f) X,
              problem <$> _construct_X_full (get_ei model0 best_f) X,
              tensor_sum (cost_model_call cost_model
                            (_construct_X_full (get_ei model0 best_f) X))), w')
    ∧ has_shape 4 6 X
    ∧ has_shape 4 7 (_construct_X_full (get_ei model0 best_f) X)
    ∧ Forall (λ x, x !! 6%nat = Some 1) (_construct_X_full (get_ei model0 best_f) X)
    ∧ tensor_sum (cost_model_call cost_model
                    (_construct_X_full (get_ei model0 best_f) X)) == 24.
Proof.
  destruct (optimize_fixed_fidelity (get_ei model0 best_f) 4
              {| batch_limit := 5; maxiter := 200 |} w)
    as (X & v & w1 & H & HX & _ & _ & Hshape & _ & Hfid & _); try done; [lia|].
  exists X, v, w1. eexists. split; [exact H|]. split.
  { unfold optimize_ei_and_get_observation. bind_with H. reflexivity. }
  split; [exact HX|]. split; [exact Hshape|]. split; [exact Hfid|].
  unfold cost_model_call. rewrite (tensor_sum_const 6).
  - rewrite length_fmap. destruct Hshape as [-> _]. reflexivity.
  - apply Forall_fmap. eapply Forall_impl; [exact Hfid|].
    intros x Hx. simpl in *. rewrite point_cost_configured, Hx. reflexivity.
Qed.

(** * The properties of the specification *)

(** C1. Bounds containment: for a valid configuration (valid bounds,
    [q >= 1]) every design point of the candidate batch that
    [optimize_acqf] returns lies within the box, coordinate by
    coordinate; and the call does return a batch whenever it has an
    initial candidate to start from, as it has in
    [optimize_mfkg_and_get_observation] and [get_recommendation]. *)
Theorem optimize_acqf_bounds_containment
    (acq_function : AcquisitionFunction) (box : Bounds)
    (q num_restarts raw_samples : nat)
    (batch_initial_conditions : option (list Batch))
    (options : OptimizeOptions) (w : World) :
  valid_bounds box = true → (1 ≤ q)%nat →
  (∀ X v w',
     optimize_acqf acq_function box q num_restarts raw_samples
       batch_initial_conditions options w = inr ((X, v), w') →
     Forall (in_box box) X)
  ∧ (initial_pool acq_function box q raw_samples batch_initial_conditions w ≠ [] →
     ∃ X v w',
       optimize_acqf acq_function box q num_restarts raw_samples
         batch_initial_conditions options w = inr ((X, v), w')
       ∧ Forall (in_box box) X).
Proof.
  intros Hb Hq. split.
  - intros X v w' H. by eapply optimize_acqf_in_box.
  - intros Hpool.
    destruct (optimize_acqf_returns acq_function box q num_restarts raw_samples
                batch_initial_conditions options w Hb Hq Hpool) as ([X v] & w' & H).
    exists X, v, w'. split; [exact H|]. by eapply optimize_acqf_in_box.
Qed.

(** C2. Dataset growth: from any state the loop runs [N] iterations, and
    afterwards [train_x] and [train_obj] hold [4 * N] more rows than
    before, the earlier rows unchanged at the front; from the initial
    design of 16 points this is [16 + 4 * N] rows. *)
Theorem dataset_growth (N : nat) (w : World) :
  (∀ s : LoopState,
     ∃ s' w', loop mfkg_iteration N s w = inr (s', w')
       ∧ length (train_x s') = (length (train_x s) + N * 4)%nat
       ∧ length (train_obj s') = (length (train_obj s) + N * 4)%nat
       ∧ train_x s `prefix_of` train_x s'
       ∧ train_obj s `prefix_of` train_obj s')
  ∧ (∃ s' w', mfkg_loop N w = inr (s', w')
       ∧ length (train_x s') = (16 + 4 * N)%nat
       ∧ length (train_obj s') = (16 + 4 * N)%nat).
Proof.
  split.
  - intros s.
    destruct (mfkg_loop_returns N s w) as (s' & w' & H & Hx & Ho & Hpx & Hpo & _).
    exists s', w'. done.
  - destruct (init_state_returns w) as (s0 & w0 & Hinit & Hx0 & Ho0 & _).
    destruct (mfkg_loop_returns N s0 w0) as (s' & w' & H & Hx & Ho & _).
    exists s', w'. split; [|lia].
    unfold mfkg_loop. apply bind_inr. eauto.
Qed.

(** C3. Monotone cost accumulation: iteration [n + 1] of the loop adds
    to the cumulative cost the cost of its batch,
    [cost_model(candidates).sum()]; that cost is at least [4 * 5.0], the
    fixed cost of its four points, so the cumulative cost after the
    iteration is strictly larger than before it.  Under the configured
    cost model any batch with nonnegative fidelity coordinates costs at
    least [5.0] per point. *)
Theorem cumulative_cost_strictly_increasing (n : nat) (s0 : LoopState) (w0 : World) :
  (∃ s w candidates s' w',
     loop mfkg_iteration n s0 w0 = inr (s, w)
     ∧ mfkg_iteration s w = inr (s', w')
     ∧ loop mfkg_iteration (S n) s0 w0 = inr (s', w')
     ∧ train_x s' = train_x s ++ candidates
     ∧ length candidates = 4%nat
     ∧ cumulative_cost s'
       = cumulative_cost s + tensor_sum (cost_model_call cost_model candidates)
     ∧ Q_of_nat 4 * 5 <= tensor_sum (cost_model_call cost_model candidates)
     ∧ cumulative_cost s < cumulative_cost s')
  ∧ (∀ X : Batch,
       Forall (λ x, 0 <= default 0 (x !! 6%nat)) X →
       Q_of_nat (length X) * 5 <= tensor_sum (cost_model_call cost_model X)
       ∧ ((1 ≤ length X)%nat → 0 < tensor_sum (cost_model_call cost_model X))).
Proof.
  split.
  - destruct (mfkg_loop_returns n s0 w0) as (s & w & Hloop & _).
    destruct (mfkg_iteration_returns s w) as (new_x & w' & Hit & Hshape & Hbox & _).
    eexists s, w, new_x, _, w'.
    split; [exact Hloop|]. split; [exact Hit|].
    split. { rewrite loop_snoc. by bind_with Hloop. }
    pose proof (batch_cost_in_box 4 new_x Hshape Hbox) as Hge.
    split; [reflexivity|]. split; [apply Hshape|].
    split; [reflexivity|]. split; [exact Hge|].
    cbn [cumulative_cost]. change (Q_of_nat 4) with 4 in Hge. lra.
  - intros X HX. pose proof (batch_cost_lower_bound X HX) as Hge.
    split; [exact Hge|]. intros Hlen.
    pose proof (Q_of_nat_ge_1 _ Hlen). nra.
Qed.

(** C4, as amended. [get_recommendation] maximises the posterior mean
    over the six free dimensions with dimension 6 fixed to 1: the
    recommendation is the optimiser's single point with the fidelity
    reinserted, it lies in the box, its coordinate 6 is exactly 1, and
    the optimiser's value is the posterior mean there.  It is printed
    together with the value of the test objective at that point. *)
Theorem recommendation_at_target_fidelity (model0 : Model) (w : World) :
  ∃ X v w1 final_rec w',
    optimize_acqf (FixedFeature_as_acqf (rec_acqf model0)) (drop_last_column bounds) 1
      NUM_RESTARTS RAW_SAMPLES None {| batch_limit := 5; maxiter := 200 |} w
      = inr ((X, v), w1)
    ∧ get_recommendation model0 w = inr (final_rec, w')
    ∧ final_rec = _construct_X_full (rec_acqf model0) X
    ∧ v = posterior_mean model0 final_rec
    ∧ has_shape 1 7 final_rec
    ∧ Forall (in_box bounds) final_rec
    ∧ Forall (λ x, x !! 6%nat = Some 1) final_rec
    ∧ stdout w' = PrintRecommendation final_rec (problem <$> final_rec) :: stdout w.
Proof.
  destruct (get_recommendation_returns model0 w)
    as (X & v & w1 & w' & H & Hrec & Hv & Hshape & Hbox & Hfid & Hout).
  by exists X, v, w1, (_construct_X_full (rec_acqf model0) X), w'.
Qed.

(** C5. The cost model is affine in the fidelity coordinates: with no
    fidelity dimension the cost is the fixed cost, and each further
    fidelity dimension [f] with weight [wt] adds [wt * x[f]]; with the
    configured weights [{6: 1.0}] and fixed cost [5.0] the cost of [x] is
    [5.0 + x[6]]; the cost of a batch is the sum of the costs of its
    points. *)
Theorem cost_model_affine (x : Point) (s c wt : Q) (f : nat) (weights : gmap nat Q)
    (cm : AffineFidelityCostModel) (X1 X2 : Batch) :
  x !! 6%nat = Some s → weights !! f = None →
  point_cost {| fidelity_weights := ∅; fixed_cost := c |} x == c
  ∧ point_cost {| fidelity_weights := <[f := wt]> weights; fixed_cost := c |} x
    == point_cost {| fidelity_weights := weights; fixed_cost := c |} x
       + wt * default 0 (x !! f)
  ∧ point_cost cost_model x == 5 + s
  ∧ tensor_sum (cost_model_call cm []) == 0
  ∧ tensor_sum (cost_model_call cm [x]) == point_cost cm x
  ∧ tensor_sum (cost_model_call cm (X1 ++ X2))
    == tensor_sum (cost_model_call cm X1) + tensor_sum (cost_model_call cm X2).
Proof.
  intros Hs Hf. split; [|split; [|split; [|split; [|split]]]].
  - unfold point_cost. cbn [fidelity_weights fixed_cost].
    rewrite map_to_list_empty. simpl. ring.
  - unfold point_cost. cbn [fidelity_weights fixed_cost].
    rewrite (tensor_sum_perm _ _
      (fmap_Permutation _ _ _ (map_to_list_insert weights f wt Hf))).
    rewrite fmap_cons. simpl. ring.
  - rewrite point_cost_configured, Hs. reflexivity.
  - reflexivity.
  - simpl. ring.
  - unfold cost_model_call. rewrite fmap_app. apply tensor_sum_app.
Qed.

(** C6. The projector: [project X] has the rows of [X], each with its
    coordinates unchanged except coordinate 6, which is the target
    fidelity 1; it is a function of [X] alone, and projecting twice is
    projecting once. *)
Theorem project_spec (X : Batch) :
  project (project X) = project X
  ∧ length (project X) = length X
  ∧ ∀ (j : nat) (x : Point), X !! j = Some x →
      ∃ x', project X !! j = Some x'
        ∧ length x' = length x
        ∧ (∀ i : nat, i ≠ 6%nat → x' !! i = x !! i)
        ∧ ((6 < length x)%nat → x' !! 6%nat = Some 1).
Proof.
  unfold project, project_to_target_fidelity. split; [|split].
  - rewrite <- list_fmap_compose. apply list_fmap_ext. intros _ x _. simpl.
    unfold project_point. apply list_eq. intros i.
    rewrite !list_lookup_imap. destruct (x !! i) as [xi|]; simpl; [|done].
    f_equal. unfold target_fidelities.
    destruct (decide (i = 6%nat)) as [->|Hne].
    + by rewrite lookup_singleton_eq.
    + by rewrite lookup_singleton_ne.
  - by rewrite length_fmap.
  - intros j x Hj. exists (project_point target_fidelities x).
    split; [by rewrite list_lookup_fmap, Hj|].
    unfold project_point. split; [by rewrite length_imap|]. split.
    + intros i Hne. rewrite list_lookup_imap.
      destruct (x !! i) as [xi|]; simpl; [|done].
      unfold target_fidelities. by rewrite lookup_singleton_ne.
    + intros Hlen. destruct (lookup_lt_is_Some_2 x 6 Hlen) as [x6 Hx6].
      rewrite list_lookup_imap, Hx6. simpl.
      unfold target_fidelities. by rewrite lookup_singleton_eq.
Qed.

Lemma Qmax_pos (c eps : Q) : 0 < eps → 0 < Qmax c eps.
Proof. intros H. eapply Qlt_le_trans; [exact H|apply Q.le_max_r]. Qed.

(** C7, as amended. For a fixed cost the utility preserves the strict
    order of the raw values; for a fixed raw value [v > 0] it inverts the
    strict order of two costs [c1 < c2] when the larger one is above
    [eps]. *)
Theorem utility_ordering (eps c raw1 raw2 v c1 c2 : Q) :
  0 < eps → raw1 < raw2 → 0 < v → c1 < c2 → eps < c2 →
  utility eps raw1 c < utility eps raw2 c
  ∧ utility eps v c2 < utility eps v c1.
Proof.
  intros Heps Hraw Hv Hc Hc2. unfold utility, Qdiv. split.
  - apply Qmult_lt_compat_r; [|done].
    by apply Qinv_lt_0_compat, Qmax_pos.
  - apply Qmult_lt_l; [done|].
    apply (proj1 (Qinv_lt_contravar (Qmax c1 eps) (Qmax c2 eps)
                    (Qmax_pos c1 eps Heps) (Qmax_pos c2 eps Heps))).
    eapply Qlt_le_trans; [|apply Q.le_max_l].
    apply Q.max_lub_lt; done.
Qed.

Lemma zero_weight_point_cost (weights : gmap nat Q) (c : Q) (x : Point) :
  all_weights_zero weights = true →
  point_cost {| fidelity_weights := weights; fixed_cost := c |} x == c.
Proof.
  unfold all_weights_zero, point_cost. cbn [fidelity_weights fixed_cost].
  intros H. rewrite forallb_forall in H.
  assert (tensor_sum ((λ fw : nat * Q, fw.2 * default 0 (x !! fw.1)) <$>
                      map_to_list weights) == 0) as ->; [|ring].
  induction (map_to_list weights) as [|fw l IH]; [reflexivity|].
  rewrite fmap_cons. simpl. rewrite IH.
  - assert (fw.2 == 0) as ->; [|ring].
    apply Qeq_bool_eq, H. by left.
  - intros fw' Hin. apply H. by right.
Qed.

Lemma utility_at_cost (eps raw c c' : Q) :
  c == c' → eps <= c' → utility eps raw c == raw / c'.
Proof.
  intros Hc Heps. unfold utility.
  assert (Qmax c eps == c') as ->; [|reflexivity].
  rewrite Hc. by apply Q.max_l.
Qed.

(** C8, as amended. With all fidelity weights zero and [fixed_cost = 1]
    (and [eps <= 1]) the utility at the cost of a single design point is
    the raw value itself; for a batch of [q >= 1] points the cost is [q]
    and the utility is the raw value divided by [q]. *)
Theorem zero_weight_collapse (weights : gmap nat Q) (eps raw : Q) (x : Point) (X : Batch) :
  all_weights_zero weights = true → eps <= 1 → (1 ≤ length X)%nat →
  utility eps raw (point_cost {| fidelity_weights := weights; fixed_cost := 1 |} x) == raw
  ∧ cost_aware_utility_call
      {| icw_cost_model := {| fidelity_weights := weights; fixed_cost := 1 |};
         min_cost := eps |} [x] raw == raw
  ∧ cost_aware_utility_call
      {| icw_cost_model := {| fidelity_weights := weights; fixed_cost := 1 |};
         min_cost := eps |} X raw == raw / Q_of_nat (length X).
Proof.
  intros Hz Heps HX.
  pose proof (zero_weight_point_cost weights 1 x Hz) as Hx.
  split; [|split].
  - rewrite (utility_at_cost eps raw _ 1 Hx Heps). field.
  - unfold cost_aware_utility_call, batch_cost. cbn [icw_cost_model min_cost].
    rewrite (utility_at_cost eps raw _ 1); [field| |done].
    simpl. rewrite Hx. ring.
  - unfold cost_aware_utility_call, batch_cost. cbn [icw_cost_model min_cost].
    pose proof (Q_of_nat_ge_1 _ HX) as Hge.
    apply utility_at_cost; [|lra].
    unfold cost_model_call. rewrite (tensor_sum_const 1).
    + rewrite length_fmap. ring.
    + apply Forall_fmap, Forall_forall. intros x0 _. simpl.
      by apply zero_weight_point_cost.
Qed.

(** C9. [get_mfkg] runs the optimiser once, on the posterior mean at
    the target fidelity, and the acquisition it returns holds the value
    of that run as [current_value].  Every evaluation of the acquisition,
    on whatever joint batch, subtracts this same value from each
    fantasy's posterior mean, and optimising the acquisition afterwards
    is one optimiser run and no more: nothing recomputes the value. *)
Theorem current_value_captured_once (model0 : Model) (w : World) :
  ∃ X v a w',
    optimize_acqf (FixedFeature_as_acqf (curr_val_acqf model0)) (drop_last_column bounds) 1
      (if negb (truthy SMOKE_TEST) then 10 else 2)
      (if negb (truthy SMOKE_TEST) then 1024 else 4)
      None {| batch_limit := 10; maxiter := 200 |} w = inr ((X, v), w')
    ∧ get_mfkg model0 w = inr (a, w')
    ∧ optimizer_calls w' = S (optimizer_calls w)
    ∧ current_value a = v
    ∧ (∀ (X_full : Batch),
         kg_forward a X_full
         = cost_aware_utility_call cost_aware_utility
             (take (length X_full - num_fantasies a) X_full)
             (tensor_sum
                (imap (λ k x_k,
                         posterior_mean
                           (condition_on_observations model0
                              (take (length X_full - num_fantasies a) X_full)
                              ((λ x, predictive_sample model0 x (base_sample k)) <$>
                               take (length X_full - num_fantasies a) X_full))
                           (project [x_k]) - v)
                      (drop (length X_full - num_fantasies a) X_full))
              / Q_of_nat (num_fantasies a)))
    ∧ (∀ box q num_restarts raw_samples ics options w1 r w2,
         optimize_acqf (qMFKG_as_acqf a) box q num_restarts raw_samples ics options w1
           = inr (r, w2) →
         optimizer_calls w2 = S (optimizer_calls w1)).
Proof.
  destruct (get_mfkg_returns model0 w) as (X & v & a & w' & Hopt & Hget & Ha & Hc & _).
  exists X, v, a, w'.
  split; [exact Hopt|]. split; [exact Hget|]. split; [exact Hc|].
  split; [by rewrite Ha|]. split.
  - intros X_full. by rewrite Ha.
  - intros box q nr rs ics opts w1 r w2 H.
    by destruct (optimize_acqf_effects _ _ _ _ _ _ _ _ _ _ H) as (_ & _ & ? & _).
Qed.

(** C10. In the comparison with standard EI the acquisition is
    optimised over the first six dimensions and the fidelity is
    reinserted: every candidate of [optimize_ei_and_get_observation] has
    coordinate 6 exactly 1, and the cost of the batch of four is
    [4 * (5.0 + 1.0) = 24.0]. *)
Theorem ei_candidates_at_target_fidelity (model0 : Model) (best_f : Q) (w : World) :
  ∃ X v w1 new_x new_obj cost w',
    optimize_acqf (FixedFeature_as_acqf (get_ei model0 best_f)) (drop_last_column bounds) 4
      NUM_RESTARTS RAW_SAMPLES None {| batch_limit := 5; maxiter := 200 |} w
      = inr ((X, v), w1)
    ∧ optimize_ei_and_get_observation (get_ei model0 best_f) w
      = inr ((new_x, new_obj, cost), w')
    ∧ has_shape 4 6 X
    ∧ new_x = _construct_X_full (get_ei model0 best_f) X
    ∧ has_shape 4 7 new_x
    ∧ Forall (λ x, x !! 6%nat = Some 1) new_x
    ∧ cost = tensor_sum (cost_model_call cost_model new_x)
    ∧ cost == 24.
Proof.
  destruct (optimize_ei_returns model0 best_f w)
    as (X & v & w1 & w' & H & Hopt & HX & Hshape & Hfid & Hcost).
  exists X, v, w1. eexists _, _, _, w'.
  split; [exact H|]. split; [exact Hopt|]. done.
Qed.

(** * The whole notebook *)

(** The validating constructor accepts the configured cost model. *)
Lemma cost_model_accepted :
  AffineFidelityCostModel_init {[ 6%nat := 1 ]} 5 = inr cost_model.
Proof. reflexivity. Qed.

(** After at least one iteration [model] is bound. *)
Lemma mfkg_loop_binds_model (n : nat) (s s' : LoopState) (w w' : World) :
  loop mfkg_iteration (S n) s w = inr (s', w') → is_Some (model s').
Proof.
  rewrite loop_snoc. intros H.
  apply bind_inr in H as (s1 & w1 & _ & H).
  destruct (mfkg_iteration_returns s1 w1) as (new_x & w2 & Hit & _).
  rewrite Hit in H. injection H as <- _. simpl. eauto.
Qed.

(** The MFKG experiment runs to its end: [N_ITER] batches of four on top
    of the 16 initial points, at a cost of at least 20 per batch, and a
    recommendation in the box at the target fidelity. *)
Lemma mfkg_experiment_returns (w : World) :
  ∃ s final_rec w',
    mfkg_experiment w = inr ((s, final_rec), w')
    ∧ length (train_x s) = (16 + 4 * N_ITER)%nat
    ∧ length (train_obj s) = (16 + 4 * N_ITER)%nat
    ∧ Q_of_nat N_ITER * 20 <= cumulative_cost s
    ∧ has_shape 1 7 final_rec
    ∧ Forall (in_box bounds) final_rec
    ∧ Forall (λ x, x !! 6%nat = Some 1) final_rec.
Proof.
  destruct (init_state_returns w) as (s0 & w0 & Hinit & Hx0 & Ho0 & Hc0 & _).
  destruct (mfkg_loop_returns N_ITER s0 w0)
    as (s & w1 & Hloop & Hx & Ho & _ & _ & Hcost).
  assert (is_Some (model s)) as [m Hm].
  { assert (∃ n, N_ITER = S n) as [n Hn].
    { unfold N_ITER. destruct (truthy SMOKE_TEST); simpl; eauto. }
    rewrite Hn in Hloop. by eapply mfkg_loop_binds_model. }
  destruct (get_recommendation_returns m w1)
    as (X & v & w2 & w3 & _ & Hrec & _ & Hshape & Hbox & Hfid & _).
  exists s, (_construct_X_full (rec_acqf m) X). eexists.
  split.
  { unfold mfkg_experiment, mfkg_loop.
    apply bind_inr. exists s, w1. split.
    { bind_with Hinit. exact Hloop. }
    unfold recommend. rewrite Hm.
    apply bind_inr. eexists _, _. split.
    { bind_with Hrec. reflexivity. }
    reflexivity. }
  split; [lia|]. split; [lia|]. split; [|done].
  rewrite Hc0 in Hcost. lra.
Qed.

(** One EI iteration on a non-empty dataset: four points at fidelity 1,
    at a cost of 24. *)
Lemma ei_iteration_returns (s : LoopState) (w : World) :
  train_obj s ≠ [] →
  ∃ s' w', ei_iteration s w = inr (s', w')
    ∧ length (train_x s') = (length (train_x s) + 4)%nat
    ∧ length (train_obj s') = (length (train_obj s) + 4)%nat
    ∧ cumulative_cost s' == cumulative_cost s + 24.
Proof.
  intros Hne. unfold ei_iteration.
  destruct (train_obj s) as [|y ys] eqn:Hobj; [done|]. clear Hne.
  set (m := fit_gpytorch_mll _). set (best_f := foldl Qmax y ys).
  destruct (optimize_ei_returns m best_f w)
    as (X & v & w1 & w' & _ & Hopt & _ & [Hlen _] & _ & Hcost).
  eexists _, w'. split.
  { apply bind_inr. exists best_f, w. split; [reflexivity|].
    bind_with Hopt. reflexivity. }
  cbn [train_x train_obj cumulative_cost].
  rewrite !length_app, length_fmap, Hlen, Hcost. done.
Qed.

(** The EI comparison: every batch costs 24, so [n] iterations cost
    [24 * n]; the six iterations of the notebook cost the 144.0 that its
    output shows. *)
Lemma ei_loop_returns (n : nat) (w : World) :
  ∃ s w', ei_loop n w = inr (s, w')
    ∧ length (train_x s) = (16 + 4 * n)%nat
    ∧ length (train_obj s) = (16 + 4 * n)%nat
    ∧ cumulative_cost s == Q_of_nat n * 24.
Proof.
  destruct (init_state_returns w) as (s0 & w0 & Hinit & Hx0 & Ho0 & Hc0 & _).
  assert (∀ n s w, (1 ≤ length (train_obj s))%nat →
            ∃ s' w', loop ei_iteration n s w = inr (s', w')
              ∧ length (train_x s') = (length (train_x s) + 4 * n)%nat
              ∧ length (train_obj s') = (length (train_obj s) + 4 * n)%nat
              ∧ cumulative_cost s' == cumulative_cost s + Q_of_nat n * 24) as Hloop.
  { clear. intros n. induction n as [|n IH]; intros s w Hs.
    - exists s, w. split; [done|]. split; [lia|]. split; [lia|].
      change (Q_of_nat 0) with 0. ring.
    - destruct (ei_iteration_returns s w) as (s1 & w1 & Hit & Hx1 & Ho1 & Hc1).
      { destruct (train_obj s); [simpl in Hs; lia|done]. }
      destruct (IH s1 w1) as (s' & w' & Hl & Hx & Ho & Hc); [lia|].
      exists s', w'. split; [simpl; by bind_with Hit|].
      split; [lia|]. split; [lia|].
      rewrite Hc, Hc1, Q_of_nat_S. ring. }
  destruct (Hloop n s0 w0) as (s & w' & Hl & Hx & Ho & Hc); [lia|].
  exists s, w'. split; [unfold ei_loop; by bind_with Hinit|].
  split; [lia|]. split; [lia|]. rewrite Hc, Hc0. ring.
Qed.

(** * Further properties of the notebook *)

(** ** Costs, fidelities and the unit box *)

Lemma tensor_sum_upper_bound (c : Q) (l : list Q) :
  Forall (λ x, x <= c) l → tensor_sum l <= Q_of_nat (length l) * c.
Proof.
  induction 1 as [|x l Hx _ IH].
  - change (0 <= 0 * c). lra.
  - cbn [length tensor_sum foldr]. fold (tensor_sum l).
    rewrite Q_of_nat_S. nra.
Qed.

Lemma batch_cost_formula (X : Batch) :
  tensor_sum (cost_model_call cost_model X)
  == Q_of_nat (length X) * 5 + tensor_sum (fidelity <$> X).
Proof.
  unfold cost_model_call. induction X as [|x X IH].
  - change (0 == 0 * 5 + 0). ring.
  - rewrite !fmap_cons. cbn [length tensor_sum foldr].
    fold (tensor_sum (point_cost cost_model <$> X)).
    fold (tensor_sum (fidelity <$> X)).
    rewrite IH, Q_of_nat_S, point_cost_configured. unfold fidelity. ring.
Qed.

Lemma bounds_lookup (i : nat) : (i < 7)%nat → bounds !! i = Some (0, 1).
Proof.
  intros Hi. do 7 (destruct i as [|i]; [reflexivity|]). lia.
Qed.

Lemma unit_point_in_box (x : Point) :
  (length x ≤ 7)%nat → Forall (λ xi, 0 <= xi <= 1) x → in_box bounds x.
Proof.
  intros Hlen Hx i xi Hi. exists 0, 1.
  pose proof (lookup_lt_Some _ _ _ Hi) as Hlt.
  unfold lower, upper. rewrite !list_lookup_fmap, bounds_lookup by lia.
  split; [done|]. split; [done|].
  rewrite Forall_forall in Hx. apply Hx. eapply list_elem_of_lookup_2, Hi.
Qed.

Lemma in_box_fidelity_range (x : Point) :
  length x = 7%nat → in_box bounds x → 0 <= fidelity x <= 1.
Proof.
  intros Hx Hbox. destruct (in_box_fidelity x Hx Hbox) as (s & Hs & Hr).
  unfold fidelity. by rewrite Hs.
Qed.

Lemma batch_cost_range (n : nat) (X : Batch) :
  has_shape n 7 X → Forall (in_box bounds) X →
  Q_of_nat n * 5 <= tensor_sum (cost_model_call cost_model X) <= Q_of_nat n * 6.
Proof.
  intros [Hn Hrows] Hbox.
  assert (Forall (λ f, 0 <= f <= 1) (fidelity <$> X)) as Hf.
  { apply Forall_fmap. rewrite Forall_forall in Hrows. rewrite Forall_forall in Hbox.
    apply Forall_forall. intros x Hel. by apply in_box_fidelity_range; auto. }
  rewrite batch_cost_formula, Hn.
  pose proof (tensor_sum_lower_bound 0 (fidelity <$> X)) as Hlo.
  pose proof (tensor_sum_upper_bound 1 (fidelity <$> X)) as Hup.
  rewrite length_fmap, Hn in Hlo, Hup.
  split.
  - assert (Q_of_nat n * 0 <= tensor_sum (fidelity <$> X)); [|lra].
    apply Hlo. eapply Forall_impl; [exact Hf|]. intros f [? ?]. done.
  - assert (tensor_sum (fidelity <$> X) <= Q_of_nat n * 1); [|lra].
    apply Hup. eapply Forall_impl; [exact Hf|]. intros f [? ?]. done.
Qed.

(** ** [generate_initial_data] *)

(** X1. [generate_initial_data(n)] returns [n] design points of seven
    columns and their [n] observed values, the objective at each point
    in the same order; it reads [7 * n] numbers of the random stream,
    starts no optimisation and prints nothing.  As [torch.rand] draws
    from [[0, 1)], every initial point lies in the box. *)
Theorem generate_initial_data_contract (n : nat) (w : World) :
  (∀ k : nat, 0 <= unif k ∧ unif k < 1) →
  ∃ train_x0 train_obj0 w',
    generate_initial_data n w = inr ((train_x0, train_obj0), w')
    ∧ has_shape n 7 train_x0
    ∧ length train_obj0 = n
    ∧ train_obj0 = problem <$> train_x0
    ∧ Forall (in_box bounds) train_x0
    ∧ rng w' = (rng w + n * 7)%nat
    ∧ optimizer_calls w' = optimizer_calls w
    ∧ stdout w' = stdout w.
Proof.
  intros Hunif.
  unfold generate_initial_data, tensor_rand, get_rng, advance_rng.
  unfold mbind, M_bind, mret, M_ret. cbn beta iota.
  eexists _, _, _. split; [reflexivity|]. cbn [rng optimizer_calls stdout].
  split; [|split; [|split; [done|split; [|done]]]].
  - split; [by rewrite length_fmap, length_seq|].
    apply Forall_fmap, Forall_forall. intros r _. cbn beta.
    unfold compose. by rewrite length_fmap, length_seq.
  - by rewrite !length_fmap, length_seq.
  - apply Forall_fmap, Forall_forall. intros r _. unfold compose.
    apply unit_point_in_box.
    + by rewrite length_fmap, length_seq.
    + apply Forall_fmap, Forall_forall. intros i _. unfold compose.
      destruct (Hunif (rng w + r * 7 + i)%nat). split; [done|lra].
Qed.

(** ** The MFKG step and loop *)


Lemma mfkg_iteration_report (s : LoopState) (w : World) :
  ∃ new_x w',
    mfkg_iteration s w
      = inr ({| train_x := train_x s ++ new_x;
                train_obj := train_obj s ++ (problem <$> new_x);
                cumulative_cost :=
                  cumulative_cost s + tensor_sum (cost_model_call cost_model new_x);
                model := Some (fit_gpytorch_mll
                                 (initialize_model (train_x s) (train_obj s))) |}, w')
    ∧ has_shape 4 7 new_x ∧ Forall (in_box bounds) new_x
    ∧ stdout w' = PrintObservations (problem <$> new_x) :: PrintCandidates new_x :: stdout w.
Proof.
  set (m := fit_gpytorch_mll (initialize_model (train_x s) (train_obj s))).
  destruct (get_mfkg_returns m w) as (X & v & a & w1 & _ & Hget & Ha & _ & Hs1).
  destruct (optimize_mfkg_returns a w1) as (new_x & w2 & Hopt & Hshape & Hbox & _ & Hs2).
  { by rewrite Ha. }
  exists new_x, w2. split; [|split; [done|split; [done|by rewrite Hs2, Hs1]]].
  unfold mfkg_iteration. fold m.
  bind_with Hget. bind_with Hopt. reflexivity.
Qed.

Lemma has_shape_app (n m d : nat) (X Y : Batch) :
  has_shape n d X → has_shape m d Y → has_shape (n + m) d (X ++ Y).
Proof.
  intros [Hn HX] [Hm HY]. split.
  - rewrite length_app. lia.
  - by apply Forall_app.
Qed.

Lemma Q_of_nat_mul (n m : nat) : Q_of_nat (n * m) == Q_of_nat n * Q_of_nat m.
Proof. unfold Q_of_nat. rewrite Nat2Z.inj_mul, inject_Z_mult. reflexivity. Qed.

(** What [n] iterations of a loop whose every step appends four
    in-box points, their observations and their cost leave behind. *)
Lemma mfkg_loop_report (n : nat) (s : LoopState) (w : World) :
  ∃ s' acquired w',
    loop mfkg_iteration n s w = inr (s', w')
    ∧ train_x s' = train_x s ++ acquired
    ∧ train_obj s' = train_obj s ++ (problem <$> acquired)
    ∧ has_shape (n * 4) 7 acquired
    ∧ Forall (in_box bounds) acquired
    ∧ cumulative_cost s'
      == cumulative_cost s + tensor_sum (cost_model_call cost_model acquired)
    ∧ length (stdout w') = (length (stdout w) + n * 2)%nat.
Proof.
  revert s w. induction n as [|n IH]; intros s w.
  - exists s, [], w. simpl. rewrite !app_nil_r.
    split; [done|]. split; [done|]. split; [done|].
    split; [by split|]. split; [done|]. split; [|lia].
    change (tensor_sum []) with 0. ring.
  - destruct (mfkg_iteration_report s w) as (new_x & w1 & Hit & Hshape & Hbox & Hout).
    match type of Hit with _ = inr (?s1, _) => set (s1' := s1) in * end.
    destruct (IH s1' w1)
      as (s' & acq & w' & Hloop & Hx & Ho & Hsh & Hb & Hc & Hlen).
    exists s', (new_x ++ acq), w'.
    split. { simpl. by bind_with Hit. }
    subst s1'. cbn [train_x train_obj cumulative_cost] in *.
    split; [by rewrite Hx, app_assoc|].
    split; [by rewrite Ho, fmap_app, app_assoc|].
    split; [by apply (has_shape_app 4 (n * 4))|].
    split; [by apply Forall_app|].
    split.
    + rewrite Hc. unfold cost_model_call. rewrite fmap_app, tensor_sum_app. ring.
    + rewrite Hlen, Hout. simpl. lia.
Qed.

Lemma init_state_ok (w : World) :
  ∃ s w', init_state w = inr (s, w')
    ∧ length (train_x s) = 16%nat ∧ dataset_ok s
    ∧ cumulative_cost s = 0 ∧ model s = None ∧ stdout w' = stdout w.
Proof.
  eexists _, _. split; [reflexivity|]. cbn [train_x train_obj cumulative_cost model].
  split; [reflexivity|]. split; [|done].
  split; [reflexivity|]. repeat constructor.
Qed.


(** ** The EI step and loop *)

Lemma optimize_ei_report (model0 : Model) (best_f : Q) (w : World) :
  ∃ new_x w',
    optimize_ei_and_get_observation (get_ei model0 best_f) w
      = inr ((new_x, problem <$> new_x,
              tensor_sum (cost_model_call cost_model new_x)), w')
    ∧ has_shape 4 7 new_x ∧ Forall (in_box bounds) new_x
    ∧ Forall (λ x, x !! 6%nat = Some 1) new_x
    ∧ tensor_sum (cost_model_call cost_model new_x) == 24
    ∧ stdout w' = PrintObservations (problem <$> new_x) :: PrintCandidates new_x :: stdout w.
Proof.
  destruct (optimize_fixed_fidelity (get_ei model0 best_f) 4
              {| batch_limit := 5; maxiter := 200 |} w)
    as (X & v & w1 & H & _ & _ & _ & Hshape & Hbox & Hfid & _ & Hout);
    try done; [lia|].
  exists (_construct_X_full (get_ei model0 best_f) X). eexists. split.
  { unfold optimize_ei_and_get_observation. bind_with H. reflexivity. }
  split; [done|]. split; [done|]. split; [done|]. split; [|simpl; by rewrite Hout].
  destruct Hshape as [Hlen _].
  rewrite batch_cost_formula, Hlen, (tensor_sum_const 1).
  - rewrite length_fmap, Hlen. reflexivity.
  - apply Forall_fmap. eapply Forall_impl; [exact Hfid|].
    intros x Hx. simpl in *. unfold fidelity. by rewrite Hx.
Qed.

Lemma ei_iteration_report (s : LoopState) (w : World) :
  train_obj s ≠ [] →
  ∃ new_x w',
    ei_iteration s w
      = inr ({| train_x := train_x s ++ new_x;
                train_obj := train_obj s ++ (problem <$> new_x);
                cumulative_cost :=
                  cumulative_cost s + tensor_sum (cost_model_call cost_model new_x);
                model := Some (fit_gpytorch_mll
                                 (initialize_model (train_x s) (train_obj s))) |}, w')
    ∧ has_shape 4 7 new_x ∧ Forall (in_box bounds) new_x
    ∧ Forall (λ x, x !! 6%nat = Some 1) new_x
    ∧ tensor_sum (cost_model_call cost_model new_x) == 24
    ∧ stdout w' = PrintObservations (problem <$> new_x) :: PrintCandidates new_x :: stdout w.
Proof.
  intros Hne. unfold ei_iteration.
  destruct (train_obj s) as [|y ys] eqn:Hobj; [done|]. clear Hne.
  set (m := fit_gpytorch_mll _). set (best_f := foldl Qmax y ys).
  destruct (optimize_ei_report m best_f w)
    as (new_x & w' & Hopt & Hshape & Hbox & Hfid & Hcost & Hout).
  exists new_x, w'. split; [|done].
  apply bind_inr. exists best_f, w. split; [reflexivity|].
  bind_with Hopt. reflexivity.
Qed.

Lemma ei_loop_report (n : nat) (s : LoopState) (w : World) :
  train_obj s ≠ [] →
  ∃ s' acquired w',
    loop ei_iteration n s w = inr (s', w')
    ∧ train_x s' = train_x s ++ acquired
    ∧ train_obj s' = train_obj s ++ (problem <$> acquired)
    ∧ has_shape (n * 4) 7 acquired
    ∧ Forall (in_box bounds) acquired
    ∧ Forall (λ x, x !! 6%nat = Some 1) acquired
    ∧ cumulative_cost s' == cumulative_cost s + Q_of_nat n * 24
    ∧ (n = 0%nat ∧ model s' = model s ∨ (1 ≤ n)%nat ∧ is_Some (model s'))
    ∧ length (stdout w') = (length (stdout w) + n * 2)%nat.
Proof.
  revert s w. induction n as [|n IH]; intros s w Hne.
  - exists s, [], w. simpl. rewrite !app_nil_r.
    split; [done|]. split; [done|]. split; [done|].
    split; [by split|]. split; [done|]. split; [done|].
    split; [change (Q_of_nat 0) with 0; ring|]. split; [by left|lia].
  - destruct (ei_iteration_report s w Hne)
      as (new_x & w1 & Hit & Hshape & Hbox & Hfid & Hcost & Hout).
    match type of Hit with _ = inr (?s1, _) => set (s1' := s1) in * end.
    destruct (IH s1' w1)
      as (s' & acq & w' & Hloop & Hx & Ho & Hsh & Hb & Hf & Hc & Hm & Hlen).
    { subst s1'. cbn [train_obj]. by destruct (train_obj s). }
    exists s', (new_x ++ acq), w'.
    split. { simpl. by bind_with Hit. }
    subst s1'. cbn [train_x train_obj cumulative_cost model] in *.
    split; [by rewrite Hx, app_assoc|].
    split; [by rewrite Ho, fmap_app, app_assoc|].
    split; [by apply (has_shape_app 4 (n * 4))|].
    split; [by apply Forall_app|].
    split; [by apply Forall_app|].
    split; [rewrite Hc, Hcost, Q_of_nat_S; ring|].
    split.
    + right. split; [lia|]. destruct Hm as [[_ ->]|[_ ?]]; eauto.
    + rewrite Hlen, Hout. simpl. lia.
Qed.

Lemma ei_init_ok (model_before : option Model) (w : World) :
  ∃ s w', ei_init model_before w = inr (s, w')
    ∧ length (train_x s) = 16%nat ∧ dataset_ok s
    ∧ cumulative_cost s = 0 ∧ model s = model_before ∧ stdout w' = stdout w.
Proof.
  eexists _, _. split; [reflexivity|]. cbn [train_x train_obj cumulative_cost model].
  split; [reflexivity|]. split; [|done].
  split; [reflexivity|]. repeat constructor.
Qed.

Lemma dataset_nonempty (s : LoopState) :
  length (train_x s) = 16%nat → dataset_ok s → train_obj s ≠ [].
Proof.
  intros Hlen [Hobj _] Hnil. rewrite Hobj in Hnil.
  apply (f_equal length) in Hnil. rewrite length_fmap, Hlen in Hnil. done.
Qed.

(** X4. The EI loop on a fresh initial design: after [n] iterations
    the dataset is well formed, the [4 * n] acquired points lie in the
    box with fidelity exactly 1, and the cumulative cost is exactly
    [24 * n]; [model] is what it was when no iteration ran, and bound
    otherwise. *)
Theorem ei_run_contract (n : nat) (model_before : option Model) (w : World) :
  ∃ s w',
    ei_run n model_before w = inr (s, w')
    ∧ length (train_x s) = (16 + 4 * n)%nat
    ∧ dataset_ok s
    ∧ Forall (in_box bounds) (drop 16 (train_x s))
    ∧ Forall (λ x, x !! 6%nat = Some 1) (drop 16 (train_x s))
    ∧ cumulative_cost s == Q_of_nat n * 24
    ∧ (n = 0%nat ∧ model s = model_before ∨ (1 ≤ n)%nat ∧ is_Some (model s)).
Proof.
  destruct (ei_init_ok model_before w)
    as (s0 & w0 & Hinit & Hlen0 & Hok0 & Hc0 & Hm0 & _).
  destruct (ei_loop_report n s0 w0 (dataset_nonempty s0 Hlen0 Hok0))
    as (s & acq & w' & Hloop & Hx & Ho & Hsh & Hbox & Hfid & Hc & Hm & _).
  destruct Hok0 as [Hobj0 Hrows0].
  exists s, w'. split; [unfold ei_run; by bind_with Hinit|].
  assert (drop 16 (train_x s) = acq) as Hdrop.
  { rewrite Hx, drop_app_length'; done. }
  rewrite Hdrop. split.
  { rewrite Hx, length_app, Hlen0. destruct Hsh as [-> _]. lia. }
  split.
  { split.
    - by rewrite Hx, Ho, Hobj0, fmap_app.
    - rewrite Hx. apply Forall_app. split; [done|apply Hsh]. }
  split; [done|]. split; [done|].
  split; [rewrite Hc, Hc0; ring|]. by rewrite <- Hm0.
Qed.

(** X5. For the same number of iterations the MFKG loop never costs
    more than the EI loop, which pays the target fidelity for every
    point, and both have acquired the same number of points. *)
Theorem mfkg_never_costlier_than_ei (n : nat) (model_before : option Model)
    (w_mfkg w_ei : World) :
  ∃ s_mfkg w1 s_ei w2,
    mfkg_loop n w_mfkg = inr (s_mfkg, w1)
    ∧ ei_run n model_before w_ei = inr (s_ei, w2)
    ∧ length (train_x s_mfkg) = length (train_x s_ei)
    ∧ cumulative_cost s_mfkg <= cumulative_cost s_ei.
Proof.
  destruct (init_state_ok w_mfkg) as (s0 & w0 & Hinit & Hlen0 & _ & Hc0 & _).
  destruct (mfkg_loop_report n s0 w0)
    as (s1 & acq1 & w1 & Hloop1 & Hx1 & _ & Hsh1 & Hbox1 & Hc1 & _).
  destruct (ei_init_ok model_before w_ei)
    as (t0 & v0 & Hinit2 & Hlen2 & Hok2 & Hd0 & _).
  destruct (ei_loop_report n t0 v0 (dataset_nonempty t0 Hlen2 Hok2))
    as (s2 & acq2 & w2 & Hloop2 & Hx2 & _ & Hsh2 & _ & _ & Hc2 & _).
  exists s1, w1, s2, w2.
  split; [unfold mfkg_loop; by bind_with Hinit|].
  split; [unfold ei_run; by bind_with Hinit2|].
  split.
  { rewrite Hx1, Hx2, !length_app, Hlen0, Hlen2.
    destruct Hsh1 as [-> _]. by destruct Hsh2 as [-> _]. }
  pose proof (batch_cost_range _ acq1 Hsh1 Hbox1) as Hr.
  rewrite Q_of_nat_mul in Hr. change (Q_of_nat 4) with 4 in Hr.
  rewrite Hc1, Hc2, Hc0, Hd0. lra.
Qed.

(** ** The experiments, end to end *)

Lemma N_ITER_pos : ∃ n, N_ITER = S n.
Proof. unfold N_ITER. destruct (truthy SMOKE_TEST); simpl; eauto. Qed.

Lemma recommend_report (s : LoopState) (w : World) :
  is_Some (model s) →
  ∃ final_rec w',
    recommend s w = inr (final_rec, w')
    ∧ has_shape 1 7 final_rec ∧ Forall (in_box bounds) final_rec
    ∧ Forall (λ x, x !! 6%nat = Some 1) final_rec
    ∧ stdout w'
      = PrintTotalCost (cumulative_cost s)
          :: PrintRecommendation final_rec (problem <$> final_rec) :: stdout w.
Proof.
  intros [m Hm].
  destruct (get_recommendation_returns m w)
    as (X & v & w1 & w2 & _ & Hrec & _ & Hshape & Hbox & Hfid & Hout).
  eexists _, _. split.
  { unfold recommend. rewrite Hm. bind_with Hrec. reflexivity. }
  split; [done|]. split; [done|]. split; [done|]. simpl. by rewrite Hout.
Qed.

Lemma mfkg_experiment_summary (w : World) :
  ∃ s final_rec w',
    mfkg_experiment w = inr ((s, final_rec), w')
    ∧ length (train_x s) = (16 + 4 * N_ITER)%nat
    ∧ dataset_ok s
    ∧ Q_of_nat N_ITER * 20 <= cumulative_cost s <= Q_of_nat N_ITER * 24
    ∧ is_Some (model s)
    ∧ has_shape 1 7 final_rec ∧ Forall (in_box bounds) final_rec
    ∧ Forall (λ x, x !! 6%nat = Some 1) final_rec
    ∧ ∃ earlier,
        stdout w'
        = PrintTotalCost (cumulative_cost s)
            :: PrintRecommendation final_rec (problem <$> final_rec) :: earlier
        ∧ length earlier = (length (stdout w) + 2 * N_ITER)%nat.
Proof.
  destruct (init_state_ok w)
    as (s0 & w0 & Hinit & Hlen0 & [Hobj0 Hrows0] & Hc0 & _ & Hout0).
  destruct (mfkg_loop_report N_ITER s0 w0)
    as (s & acq & w1 & Hloop & Hx & Ho & Hsh & Hbox & Hc & Hlen).
  assert (is_Some (model s)) as Hm.
  { destruct N_ITER_pos as [n Hn]. rewrite Hn in Hloop.
    by eapply mfkg_loop_binds_model. }
  destruct (recommend_report s w1 Hm) as (final_rec & w2 & Hrec & Hs & Hb & Hf & Hout).
  exists s, final_rec, w2. split.
  { unfold mfkg_experiment, mfkg_loop.
    apply bind_inr. exists s, w1. split; [by bind_with Hinit|].
    bind_with Hrec. reflexivity. }
  pose proof (batch_cost_range _ acq Hsh Hbox) as Hr.
  rewrite Q_of_nat_mul in Hr. change (Q_of_nat 4) with 4 in Hr.
  split. { rewrite Hx, length_app, Hlen0. destruct Hsh as [-> _]. lia. }
  split.
  { split.
    - by rewrite Hx, Ho, Hobj0, fmap_app.
    - rewrite Hx. apply Forall_app. split; [done|apply Hsh]. }
  split; [rewrite Hc, Hc0; lra|].
  split; [done|]. split; [done|]. split; [done|]. split; [done|].
  exists (stdout w1). split; [done|]. rewrite Hlen, Hout0. lia.
Qed.

Lemma ei_experiment_summary (model_before : option Model) (w : World) :
  ∃ s final_rec w',
    ei_experiment model_before w = inr ((s, final_rec), w')
    ∧ length (train_x s) = (16 + 4 * N_ITER)%nat
    ∧ cumulative_cost s == Q_of_nat N_ITER * 24
    ∧ has_shape 1 7 final_rec ∧ Forall (in_box bounds) final_rec
    ∧ Forall (λ x, x !! 6%nat = Some 1) final_rec
    ∧ ∃ earlier,
        stdout w'
        = PrintTotalCost (cumulative_cost s)
            :: PrintRecommendation final_rec (problem <$> final_rec) :: earlier
        ∧ length earlier = (length (stdout w) + 2 * N_ITER)%nat.
Proof.
  destruct (ei_init_ok model_before w)
    as (s0 & w0 & Hinit & Hlen0 & Hok0 & Hc0 & _ & Hout0).
  destruct (ei_loop_report N_ITER s0 w0 (dataset_nonempty s0 Hlen0 Hok0))
    as (s & acq & w1 & Hloop & Hx & _ & Hsh & _ & _ & Hc & Hm & Hlen).
  assert (is_Some (model s)) as Hsome.
  { destruct Hm as [[Hz _]|[_ ?]]; [|done].
    destruct N_ITER_pos as [n Hn]. congruence. }
  destruct (recommend_report s w1 Hsome)
    as (final_rec & w2 & Hrec & Hs & Hb & Hf & Hout).
  exists s, final_rec, w2. split.
  { unfold ei_experiment, ei_run.
    apply bind_inr. exists s, w1. split; [by bind_with Hinit|].
    bind_with Hrec. reflexivity. }
  split. { rewrite Hx, length_app, Hlen0. destruct Hsh as [-> _]. lia. }
  split; [rewrite Hc, Hc0; ring|].
  split; [done|]. split; [done|]. split; [done|].
  exists (stdout w1). split; [done|]. rewrite Hlen, Hout0. lia.
Qed.

(** X6. The MFKG experiment (initial data, loop, recommendation, total
    cost) runs to its end, [model] being bound by the first of its
    [N_ITER >= 1] iterations: the dataset has [16 + 4 * N_ITER] well
    formed rows, the cost is between [20 * N_ITER] and [24 * N_ITER],
    the recommendation is one point in the box at fidelity 1, and the
    last two things printed are the recommendation with the objective
    there and then the total cost, after two prints per iteration. *)
Theorem mfkg_experiment_report (w : World) :
  ∃ s final_rec w',
    mfkg_experiment w = inr ((s, final_rec), w')
    ∧ length (train_x s) = (16 + 4 * N_ITER)%nat
    ∧ dataset_ok s
    ∧ Q_of_nat N_ITER * 20 <= cumulative_cost s <= Q_of_nat N_ITER * 24
    ∧ is_Some (model s)
    ∧ has_shape 1 7 final_rec ∧ Forall (in_box bounds) final_rec
    ∧ Forall (λ x, x !! 6%nat = Some 1) final_rec
    ∧ ∃ earlier,
        stdout w'
        = PrintTotalCost (cumulative_cost s)
            :: PrintRecommendation final_rec (problem <$> final_rec) :: earlier
        ∧ length earlier = (length (stdout w) + 2 * N_ITER)%nat.
Proof. apply mfkg_experiment_summary. Qed.

(** X7. The whole notebook runs to its end.  Both experiments acquire
    [4 * N_ITER] points on 16 initial ones; the EI experiment costs
    exactly [24 * N_ITER], which is 144 when [SMOKE_TEST] is unset, and
    never less than the MFKG experiment; both recommendations are at
    fidelity 1; the last thing printed is the total cost of the EI
    experiment. *)
Theorem notebook_report (w : World) :
  ∃ s_mfkg rec_mfkg s_ei rec_ei w',
    notebook w = inr (((s_mfkg, rec_mfkg), (s_ei, rec_ei)), w')
    ∧ length (train_x s_mfkg) = (16 + 4 * N_ITER)%nat
    ∧ length (train_x s_ei) = (16 + 4 * N_ITER)%nat
    ∧ cumulative_cost s_ei == Q_of_nat N_ITER * 24
    ∧ (SMOKE_TEST = None → cumulative_cost s_ei == 144)
    ∧ cumulative_cost s_mfkg <= cumulative_cost s_ei
    ∧ Forall (λ x, x !! 6%nat = Some 1) rec_mfkg
    ∧ Forall (λ x, x !! 6%nat = Some 1) rec_ei
    ∧ head (stdout w') = Some (PrintTotalCost (cumulative_cost s_ei))
    ∧ length (stdout w') = (length (stdout w) + 2 * (2 * N_ITER + 2))%nat.
Proof.
  destruct (mfkg_experiment_summary w)
    as (s1 & r1 & w1 & H1 & Hl1 & _ & Hc1 & _ & _ & _ & Hf1 & e1 & Ho1 & Hlen1).
  destruct (ei_experiment_summary (model s1) w1)
    as (s2 & r2 & w2 & H2 & Hl2 & Hc2 & _ & _ & Hf2 & e2 & Ho2 & Hlen2).
  exists s1, r1, s2, r2, w2. split.
  { unfold notebook. bind_with H1. cbn [fst]. bind_with H2. reflexivity. }
  split; [done|]. split; [done|]. split; [done|].
  split.
  { intros Hnone. rewrite Hc2. unfold N_ITER. rewrite Hnone. reflexivity. }
  split; [rewrite Hc2; lra|]. split; [done|]. split; [done|].
  split; [by rewrite Ho2|].
  rewrite Ho2. cbn [length]. rewrite Hlen2, Ho1. cbn [length]. rewrite Hlen1. lia.
Qed.

(** ** The current value *)

Lemma optimize_fixed_fidelity_any (ff : FixedFeatureAcquisitionFunction)
    (q nr rs : nat) (opts : OptimizeOptions) (w : World) :
  ff_d ff = 7%nat → ff_columns ff = [6%nat] → ff_values ff = [1] →
  num_inner (ff_acq_function ff) = 0%nat → (1 ≤ q)%nat → (1 ≤ rs)%nat →
  ∃ X v w',
    optimize_acqf (FixedFeature_as_acqf ff) (drop_last_column bounds) q nr rs
      None opts w = inr ((X, v), w')
    ∧ v = forward (ff_acq_function ff) (_construct_X_full ff X)
    ∧ has_shape q 7 (_construct_X_full ff X)
    ∧ Forall (in_box bounds) (_construct_X_full ff X)
    ∧ Forall (λ x, x !! 6%nat = Some 1) (_construct_X_full ff X).
Proof.
  intros Hd Hc Hv Hinner Hq Hrs.
  destruct (optimize_acqf_generated (FixedFeature_as_acqf ff) (drop_last_column bounds) q
              nr rs opts w free_bounds_valid Hq Hrs)
    as (X & v & w' & H & Hshape & Hbox & Hval & _).
  change (length (drop_last_column bounds)) with 6%nat in Hshape.
  exists X, v, w'. split; [exact H|]. split; [by apply Hval|].
  rewrite (construct_X_full_last_column ff q X Hd Hc Hv Hshape).
  split; [by apply full_batch_shape|].
  split; [by eapply full_batch_in_box|]. by eapply full_batch_fidelity.
Qed.

(** X8. The baseline that [get_mfkg] hands to the acquisition is the
    surrogate's posterior mean at a single point of the box whose
    fidelity is exactly the target 1; the acquisition is built on the
    given model with the notebook's [project] and cost-aware utility,
    and with at least one fantasy, so that its construction does not
    fail. *)
Theorem current_value_at_target_fidelity (model0 : Model) (w : World) :
  ∃ a w' x,
    get_mfkg model0 w = inr (a, w')
    ∧ length x = 7%nat
    ∧ in_box bounds x
    ∧ x !! 6%nat = Some 1
    ∧ current_value a = posterior_mean model0 [x]
    ∧ kg_model a = model0
    ∧ kg_project a = project
    ∧ kg_cost_aware_utility a = cost_aware_utility
    ∧ num_fantasies a = (if truthy SMOKE_TEST then 2 else 128)%nat
    ∧ (1 ≤ num_fantasies a)%nat.
Proof.
  destruct (get_mfkg_returns model0 w) as (X & v & a & w' & Hopt & Hget & Ha & _).
  destruct (optimize_fixed_fidelity_any (curr_val_acqf model0) 1
              (if negb (truthy SMOKE_TEST) then 10 else 2)
              (if negb (truthy SMOKE_TEST) then 1024 else 4)
              {| batch_limit := 10; maxiter := 200 |} w)
    as (X' & v' & w'' & Hopt' & Hv & [Hlen Hrows] & Hbox & Hfid); try done.
  { destruct (truthy SMOKE_TEST); simpl; lia. }
  rewrite Hopt in Hopt'. injection Hopt' as <- <- <-.
  destruct (_construct_X_full (curr_val_acqf model0) X) as [|x [|x' rest]] eqn:Hfull;
    try done.
  apply Forall_cons in Hrows as [Hx _]. apply Forall_cons in Hbox as [Hb _].
  apply Forall_cons in Hfid as [Hf _].
  exists a, w', x. split; [exact Hget|].
  split; [done|]. split; [done|]. split; [done|].
  rewrite Ha. cbn [current_value kg_model kg_project kg_cost_aware_utility num_fantasies].
  split; [by rewrite Hv|]. split; [done|]. split; [done|]. split; [done|].
  destruct (truthy SMOKE_TEST); simpl; split; (done || lia).
Qed.

(** ** The reduced box and the target fidelity *)

Lemma in_box_app_inv (b : Bounds) (x : Point) (y l u : Q) :
  length x = length b →
  in_box (b ++ [(l, u)]) (x ++ [y]) → in_box b x ∧ l <= y <= u.
Proof.
  intros Hlen H. split.
  - intros i xi Hi. pose proof (lookup_lt_Some _ _ _ Hi) as Hlt.
    destruct (H i xi) as (l' & u' & Hl & Hu & Hle).
    { by rewrite lookup_app_l. }
    exists l', u'. unfold lower, upper in *.
    rewrite list_lookup_fmap, lookup_app_l in Hl by lia.
    rewrite list_lookup_fmap, lookup_app_l in Hu by lia.
    by rewrite !list_lookup_fmap.
  - destruct (H (length x) y) as (l' & u' & Hl & Hu & Hle).
    { by rewrite list_lookup_middle. }
    unfold lower, upper in *.
    rewrite list_lookup_fmap, Hlen, list_lookup_middle in Hl by done.
    rewrite list_lookup_fmap, Hlen, list_lookup_middle in Hu by done.
    simpl in *. by simplify_eq.
Qed.

Lemma in_box_app_l (b c : Bounds) (x : Point) : in_box b x → in_box (b ++ c) x.
Proof.
  intros H i xi Hi. destruct (H i xi Hi) as (l & u & Hl & Hu & Hle).
  exists l, u. unfold lower, upper in *.
  rewrite list_lookup_fmap in Hl. rewrite list_lookup_fmap in Hu.
  destruct (b !! i) as [lu|] eqn:E; [|done].
  rewrite !list_lookup_fmap, (lookup_app_l_Some _ _ _ _ E). done.
Qed.

(** X9. [bounds[:, :-1]] removes the last column and nothing else, and
    keeps valid bounds valid; a point with a last coordinate appended
    lies in the full box exactly when the point lies in the reduced box
    and the last coordinate in the range of the removed column.  Of
    bounds without columns nothing is removed. *)
Theorem drop_last_column_box (b : Bounds) (l u y : Q) (x : Point) :
  length x = length b →
  drop_last_column (b ++ [(l, u)]) = b
  ∧ drop_last_column [] = []
  ∧ (valid_bounds (b ++ [(l, u)]) = true → valid_bounds b = true)
  ∧ (in_box (b ++ [(l, u)]) (x ++ [y]) ↔ in_box b x ∧ l <= y <= u).
Proof.
  intros Hlen.
  assert (drop_last_column (b ++ [(l, u)]) = b) as Hdrop.
  { unfold drop_last_column. rewrite length_app. simpl.
    replace (length b + 1 - 1)%nat with (length b) by lia.
    by rewrite take_app_length. }
  split; [done|]. split; [done|]. split.
  - intros Hv. rewrite <- Hdrop. by apply drop_last_column_valid.
  - split.
    + by apply in_box_app_inv.
    + intros [Hx Hy]. apply (in_box_snoc _ _ _ l u).
      * by apply in_box_app_l.
      * rewrite Hlen. by apply list_lookup_middle.
      * done.
Qed.

Lemma project_point_fidelity (x : Point) :
  (7 ≤ length x)%nat → fidelity (project_point target_fidelities x) = 1.
Proof.
  intros Hlen. unfold fidelity, project_point.
  destruct (lookup_lt_is_Some_2 x 6) as [x6 Hx6]; [lia|].
  rewrite list_lookup_imap, Hx6. simpl.
  unfold target_fidelities. by rewrite lookup_singleton_eq.
Qed.

(** X10. The target fidelity is the dearest one: a batch projected to
    the target fidelity costs exactly 6 per point, and a batch of the
    box never costs more than its projection.  The candidates that the
    EI step completes with the fixed fidelity are left as they are by
    [project]. *)
Theorem target_fidelity_cost (n : nat) (X : Batch) (Y : Batch)
    (ff : FixedFeatureAcquisitionFunction) :
  has_shape n 7 X → Forall (in_box bounds) X → Forall (λ y, length y = 6%nat) Y →
  ff_d ff = 7%nat → ff_columns ff = [6%nat] → ff_values ff = [1] →
  tensor_sum (cost_model_call cost_model (project X)) == Q_of_nat n * 6
  ∧ tensor_sum (cost_model_call cost_model X)
    <= tensor_sum (cost_model_call cost_model (project X))
  ∧ project (_construct_X_full ff Y) = _construct_X_full ff Y.
Proof.
  intros HX Hbox HY Hd Hc Hv.
  assert (tensor_sum (cost_model_call cost_model (project X)) == Q_of_nat n * 6) as Hp.
  { rewrite batch_cost_formula. unfold project, project_to_target_fidelity.
    rewrite length_fmap. destruct HX as [Hn Hrows]. rewrite Hn.
    rewrite (tensor_sum_const 1).
    - rewrite !length_fmap, Hn. ring.
    - rewrite <- list_fmap_compose. apply Forall_fmap.
      eapply Forall_impl; [exact Hrows|]. intros x Hx. simpl in *.
      rewrite project_point_fidelity; [reflexivity|lia]. }
  split; [exact Hp|]. split.
  - rewrite Hp. apply (batch_cost_range n X HX Hbox).
  - rewrite (construct_X_full_last_column ff (length Y) Y Hd Hc Hv); [|by split].
    unfold project, project_to_target_fidelity. rewrite <- list_fmap_compose.
    apply Forall_fmap_ext_1. eapply Forall_impl; [exact HY|].
    intros y Hy. simpl in *. unfold project_point. apply list_eq. intros i.
    rewrite list_lookup_imap.
    destruct (decide (i = 6%nat)) as [->|Hne].
    + rewrite lookup_app_r by lia. rewrite Hy. simpl.
      unfold target_fidelities. by rewrite lookup_singleton_eq.
    + destruct ((y ++ [1]) !! i) as [xi|]; simpl; [|done].
      unfold target_fidelities. by rewrite lookup_singleton_ne.
Qed.

(** ** The smoke-test switch *)

(** X11. The sizes of a run follow the truth value of the environment
    string: any non-empty [SMOKE_TEST], a ["0"] as well, selects the
    small run of 2 iterations, 2 restarts and 4 raw samples; an unset or
    empty one selects the full run of 6, 10 and 512. *)
Theorem smoke_test_configuration :
  ((∃ v : string, SMOKE_TEST = Some v ∧ v ≠ ""%string)
   ↔ (N_ITER, NUM_RESTARTS, RAW_SAMPLES) = (2, 2, 4)%nat)
  ∧ ((SMOKE_TEST = None ∨ SMOKE_TEST = Some ""%string)
     ↔ (N_ITER, NUM_RESTARTS, RAW_SAMPLES) = (6, 10, 512)%nat).
Proof.
  unfold N_ITER, NUM_RESTARTS, RAW_SAMPLES, truthy.
  destruct SMOKE_TEST as [v|]; simpl.
  - destruct (String.eqb v "") eqn:E; simpl.
    + apply String.eqb_eq in E. subst v. split; split; try done.
      * intros (v & [= <-] & Hne). done.
      * auto.
    + apply String.eqb_neq in E. split; split; try done.
      * eauto.
      * intros [?|[= ->]]; done.
  - split; split; try done.
    + intros (v & ? & _). done.
    + auto.
Qed.

End Engine.

Arguments train_x {Model} _.
Arguments train_obj {Model} _.
Arguments cumulative_cost {Model} _.
Arguments model {Model} _.
Arguments kg_model {Model} _.
Arguments num_fantasies {Model} _.
Arguments current_value {Model} _.
Arguments kg_cost_aware_utility {Model} _.
Arguments kg_project {Model} _.

(** * Witnesses and counterexamples *)

(** The optimiser on the sample instance: two dimensions, three raw
    samples, two restarts. *)
Lemma optimize_acqf_bounds_containment_witness :
  ∃ X v w',
    optimize_acqf Sample.unif Sample.ascent_direction Sample.converged
      Sample.acq Sample.box 1 2 3 None Sample.options Sample.world = inr ((X, v), w')
    ∧ Forall (in_box Sample.box) X.
Proof.
  apply (proj2 (optimize_acqf_bounds_containment Sample.unif Sample.ascent_direction
                  Sample.converged Sample.acq Sample.box 1 2 3 None Sample.options
                  Sample.world eq_refl (le_n 1))).
  vm_compute. discriminate.
Defined.

(** Against C4 as the specification words it: on the sample instance the printed
    objective value is the test objective at the recommendation, [1],
    while the surrogate's prediction there is [0]. *)
Lemma recommendation_reports_objective_not_prediction :
  ∃ final_rec w',
    get_recommendation Sample.unif Sample.ascent_direction Sample.converged
      unit Sample.posterior_mean Sample.problem Sample.smoke tt Sample.world
      = inr (final_rec, w')
    ∧ stdout w' = [PrintRecommendation final_rec [1]]
    ∧ Sample.posterior_mean tt final_rec = 0
    ∧ ¬ 1 == 0.
Proof.
  eexists. eexists. split; [vm_compute; reflexivity|].
  split; [reflexivity|]. split; [reflexivity|]. discriminate.
Defined.

(** The configured cost model at a point of fidelity one half. *)
Lemma cost_model_affine_witness :
  point_cost cost_model [0; 0; 0; 0; 0; 0; 1 # 2] == 5 + (1 # 2).
Proof.
  exact (proj1 (proj2 (proj2
           (cost_model_affine [0; 0; 0; 0; 0; 0; 1 # 2] (1 # 2) 5 1 6 ∅ cost_model [] []
              eq_refl eq_refl)))).
Defined.

(** Costs above [eps]. *)
Lemma utility_ordering_witness :
  utility (1 # 10000000) 1 5 < utility (1 # 10000000) 2 5
  ∧ utility (1 # 10000000) 1 6 < utility (1 # 10000000) 1 5.
Proof.
  apply (utility_ordering (1 # 10000000) 5 1 2 1 5 6); reflexivity.
Defined.

(** Against C7 as the specification words it: two costs below [eps] give the same
    utility, although the first is the smaller. *)
Lemma utility_cost_order_fails_below_eps :
  0 < 1 ∧ 0 < (1 # 100000000)
  ∧ ¬ utility (1 # 10000000) 1 (1 # 100000000) < utility (1 # 10000000) 1 0.
Proof.
  split; [reflexivity|]. split; [reflexivity|].
  intros H. vm_compute in H. discriminate H.
Defined.

(** One and two points in the zero-weight scenario. *)
Lemma zero_weight_collapse_witness :
  utility (1 # 10000000) 2
    (point_cost {| fidelity_weights := {[ 1%nat := 0 ]}; fixed_cost := 1 |} [0; 1]) == 2
  ∧ cost_aware_utility_call
      {| icw_cost_model := {| fidelity_weights := {[ 1%nat := 0 ]}; fixed_cost := 1 |};
         min_cost := 1 # 10000000 |} [[0; 1]] 2 == 2
  ∧ cost_aware_utility_call
      {| icw_cost_model := {| fidelity_weights := {[ 1%nat := 0 ]}; fixed_cost := 1 |};
         min_cost := 1 # 10000000 |} [[0; 1]; [1; 0]] 2
    == 2 / Q_of_nat (length [[0; 1]; [1; 0]]).
Proof.
  apply (zero_weight_collapse {[ 1%nat := 0 ]} (1 # 10000000) 2 [0; 1] [[0; 1]; [1; 0]]).
  - reflexivity.
  - apply Qle_bool_imp_le. reflexivity.
  - simpl. lia.
Defined.

(** Against C8 as the specification words it: in the zero-weight scenario a batch of two
    points costs 2, and the utility of raw value 2 is 1. *)
Lemma zero_weight_batch_of_two :
  all_weights_zero {[ 1%nat := 0 ]} = true
  ∧ cost_aware_utility_call
      {| icw_cost_model := {| fidelity_weights := {[ 1%nat := 0 ]}; fixed_cost := 1 |};
         min_cost := 1 # 10000000 |} [[0; 1]; [1; 0]] 2 == 1
  ∧ ¬ cost_aware_utility_call
        {| icw_cost_model := {| fidelity_weights := {[ 1%nat := 0 ]}; fixed_cost := 1 |};
           min_cost := 1 # 10000000 |} [[0; 1]; [1; 0]] 2 == 2.
Proof.
  split; [reflexivity|]. split; [reflexivity|].
  intros H. vm_compute in H. discriminate H.
Defined.

(** Two initial points from a stream that is constantly one half. *)
Lemma generate_initial_data_contract_witness :
  ∃ train_x0 train_obj0 w',
    generate_initial_data (λ _, 1 # 2) Sample.problem 2 Sample.world
      = inr ((train_x0, train_obj0), w')
    ∧ has_shape 2 7 train_x0
    ∧ length train_obj0 = 2%nat
    ∧ train_obj0 = Sample.problem <$> train_x0
    ∧ Forall (in_box bounds) train_x0
    ∧ rng w' = (rng Sample.world + 2 * 7)%nat
    ∧ optimizer_calls w' = optimizer_calls Sample.world
    ∧ stdout w' = stdout Sample.world.
Proof.
  apply (generate_initial_data_contract (λ _, 1 # 2) Sample.problem 2 Sample.world).
  intros k. split; [discriminate|reflexivity].
Defined.

(** The unit interval with a column [[0, 1]] appended. *)
Lemma drop_last_column_box_witness :
  drop_last_column ([(0, 1)] ++ [(0, 1)]) = [(0, 1)]
  ∧ drop_last_column [] = []
  ∧ (valid_bounds ([(0, 1)] ++ [(0, 1)]) = true → valid_bounds [(0, 1)] = true)
  ∧ (in_box ([(0, 1)] ++ [(0, 1)]) ([1 # 4] ++ [1 # 2])
     ↔ in_box [(0, 1)] [1 # 4] ∧ 0 <= 1 # 2 <= 1).
Proof.
  exact (drop_last_column_box [(0, 1)] 0 1 (1 # 2) [1 # 4] eq_refl).
Defined.

(** One point at fidelity one half, and one reduced point. *)
Lemma target_fidelity_cost_witness :
  tensor_sum (cost_model_call cost_model (project [[0; 0; 0; 0; 0; 0; 1 # 2]]))
    == Q_of_nat 1 * 6
  ∧ tensor_sum (cost_model_call cost_model [[0; 0; 0; 0; 0; 0; 1 # 2]])
    <= tensor_sum (cost_model_call cost_model (project [[0; 0; 0; 0; 0; 0; 1 # 2]]))
  ∧ project (_construct_X_full (get_ei unit Sample.qExpectedImprovement tt 0)
               [[0; 0; 0; 0; 0; 0]])
    = _construct_X_full (get_ei unit Sample.qExpectedImprovement tt 0)
        [[0; 0; 0; 0; 0; 0]].
Proof.
  apply (target_fidelity_cost 1 [[0; 0; 0; 0; 0; 0; 1 # 2]] [[0; 0; 0; 0; 0; 0]]
           (get_ei unit Sample.qExpectedImprovement tt 0)).
  - split; [reflexivity|]. repeat constructor.
  - repeat constructor. apply in_boxb_spec. reflexivity.
  - repeat constructor.
  - reflexivity.
  - reflexivity.
  - reflexivity.
Defined.

(** * The smoke test, run

    [SMOKE_TEST] set: two iterations from 16 initial points, two
    restarts, four raw samples, two fantasies. *)

Example project_example :
  project [[1 # 4; 0; 0; 0; 0; 0; 1 # 2]] = [[1 # 4; 0; 0; 0; 0; 0; 1]].
Proof. reflexivity. Qed.

Example construct_X_full_example :
  _construct_X_full (get_ei unit Sample.qExpectedImprovement tt 0) [[1; 2; 3; 4; 5; 6]]
  = [[1; 2; 3; 4; 5; 6; 1]].
Proof. reflexivity. Qed.

Example optimize_acqf_example :
  match optimize_acqf Sample.unif Sample.ascent_direction Sample.converged
          Sample.acq Sample.box 1 2 3 None Sample.options Sample.world with
  | inr ((X, v), w) =>
      length X = 1%nat ∧ forallb (in_boxb Sample.box) X = true
      ∧ Qeq_bool v (tensor_sum (concat X)) = true
      ∧ rng w = 6%nat ∧ optimizer_calls w = 1%nat
  | inl _ => False
  end.
Proof. vm_compute. repeat split; reflexivity. Qed.

Example smoke_test_run :
  match mfkg_experiment Sample.unif Sample.ascent_direction Sample.converged
          unit Sample.SingleTaskMultiFidelityGP Sample.fit_gpytorch_mll
          Sample.posterior_mean Sample.predictive_sample
          Sample.condition_on_observations Q_of_nat Sample.problem Sample.smoke
          (1 # 10000000) (1 # 10) Sample.options Sample.world with
  | inr ((s, final_rec), w) =>
      length (train_x s) = 24%nat
      ∧ length (train_obj s) = 24%nat
      ∧ Qle_bool 40 (cumulative_cost s) = true
      ∧ forallb (in_boxb bounds) (drop 16 (train_x s)) = true
      ∧ forallb (in_boxb bounds) final_rec = true
      ∧ (λ x : Point, x !! 6%nat) <$> final_rec = [Some 1]
      ∧ optimizer_calls w = 7%nat
  | inl _ => False
  end.
Proof. vm_compute. repeat split; reflexivity. Qed.
